(** * drvyn-dashboard: the HTTP client, the table components and the dashboard page

    A shallow embedding of [lib/api.ts], of the three [data-table.tsx]
    components and of [app/dashboard/page.tsx], with the properties of the
    written specification stated over it.

    Conventions of the embedding.
    - A JavaScript string is a [string] (a sequence of bytes, read as UTF-8).
    - A JavaScript [number] holding an integer is a [Z].
    - The built-ins of the engine whose full behaviour is outside this
      development ([String.prototype.toLowerCase], [Number.prototype.toString],
      [Array.prototype.sort]) are the members of the class [Platform], with
      the facts about them that the proofs use.
    - An optional field or an optional argument is an [option]; [None] is
      [undefined] / [null]. A member whose values a [Set] collects is a
      [Member], which keeps the two apart.
    - A module-level [let] variable and the browser objects it mirrors live in
      an explicit [World]; code that can throw runs in the monad [M]. *)

From Stdlib Require Import ZArith String Ascii List Lia Permutation Sorted DecimalString.
From stdpp Require Import base option list strings gmap.

Local Open Scope Z_scope.

(** ** JavaScript values *)

(** The decimal digits of an integer, with a leading minus sign for a
    negative one. *)
Definition decimal_digits (n : Z) : string := NilZero.string_of_int (Z.to_int n).

(** [Number.isSafeInteger(n)]: the integers a number holds exactly, one by
    one; beyond them [toString] prints the shortest digits that read back as
    the same number, and from [10^21] on exponent notation. *)
Definition safe_integer (n : Z) : bool := (- (2 ^ 53 - 1) <=? n) && (n <=? 2 ^ 53 - 1).

(** ASCII text: every byte is below 128. *)
Fixpoint is_ascii (s : string) : bool :=
  match s with
  | EmptyString => true
  | String c s' => (N_of_ascii c <? 128)%N && is_ascii s'
  end.

(** Lower-casing of ASCII text: the letters [A]-[Z] are mapped to [a]-[z],
    every other byte is kept. *)
Definition lower_byte (c : ascii) : ascii :=
  let n := N_of_ascii c in
  if ((65 <=? n) && (n <=? 90))%N then ascii_of_N (n + 32) else c.

Fixpoint ascii_toLowerCase (s : string) : string :=
  match s with
  | EmptyString => EmptyString
  | String c s' => String (lower_byte c) (ascii_toLowerCase s')
  end.

(** [x] may stand before [y] in a list ordered by descending [key]. *)
Definition descending_by {A} (key : A -> Z) (x y : A) : Prop := key y <= key x.

(** ** The built-ins of the engine *)

(** The three built-in methods the code calls whose behaviour depends on the
    engine, each with what the language standard fixes of it:
    - [toLowerCase] folds every cased letter of Unicode and is sensitive to
      context; on ASCII text it is [ascii_toLowerCase];
    - [Number_toString] is [n.toString()] for an integer-valued number [n];
      on a safe integer it gives the decimal digits;
    - [Array_sort comparefn l] is the array [l.sort(comparefn)] returns, the
      [None] of [comparefn] standing for [NaN]. It holds the elements of [l],
      rearranged. When [comparefn] orders the elements of [l] by a key,
      descending, the result is in that order and stable; with a comparator
      that returns [NaN] the order is the engine's own. *)
Class Platform : Type := {
  toLowerCase : string -> string;
  Number_toString : Z -> string;
  Array_sort : forall {A : Type}, (A -> A -> option Z) -> list A -> list A;
  toLowerCase_ascii :
    forall s, is_ascii s = true -> toLowerCase s = ascii_toLowerCase s;
  Number_toString_safe :
    forall n, safe_integer n = true -> Number_toString n = decimal_digits n;
  Array_sort_permutation :
    forall (A : Type) (comparefn : A -> A -> option Z) (l : list A),
      Permutation (Array_sort comparefn l) l;
  Array_sort_consistent :
    forall (A : Type) (comparefn : A -> A -> option Z) (key : A -> Z) (l : list A),
      (forall x y, In x l -> In y l -> comparefn x y = Some (key y - key x)) ->
      StronglySorted (descending_by key) (Array_sort comparefn l)
      /\ forall t, List.filter (fun a => key a =? t) (Array_sort comparefn l)
                   = List.filter (fun a => key a =? t) l
}.

(** Truthiness of a string ([""] is falsy) and of an optional string. *)
Definition truthy_string (s : string) : bool := negb (String.eqb s "").

Definition truthy (o : option string) : bool :=
  match o with
  | Some s => truthy_string s
  | None => false
  end.

(** A thrown value: an instance of [Error] with its [message], or anything else. *)
Inductive Thrown : Type :=
  | ErrorInstance (message : string)
  | OtherThrown.

(** The completion of a statement or of an awaited promise. *)
Inductive Completion (A : Type) : Type :=
  | Normal (a : A)
  | Throw (e : Thrown).
Arguments Normal {A} a.
Arguments Throw {A} e.

(** ** The world of [lib/api.ts] *)

(** [window] with the two members the client touches. *)
Record Window : Type := mkWindow {
  localStorage : gmap string string;
  location_href : string
}.

(** The module variable [authToken] and the global [window], which is
    [undefined] when the module runs on the server. *)
Record World : Type := mkWorld {
  authToken : option string;
  window : option Window
}.

Definition M (A : Type) : Type := World -> Completion A * World.

Definition ret {A} (a : A) : M A := fun w => (Normal a, w).

Definition bind {A B} (m : M A) (k : A -> M B) : M B := fun w =>
  match m w with
  | (Normal a, w') => k a w'
  | (Throw e, w') => (Throw e, w')
  end.

Definition throw {A} (e : Thrown) : M A := fun w => (Throw e, w).

(** [try { body } catch (error) { handler }] *)
Definition try_catch {A} (body : M A) (handler : Thrown -> M A) : M A := fun w =>
  match body w with
  | (Normal a, w') => (Normal a, w')
  | (Throw e, w') => handler e w'
  end.

(** [await p] for a promise that has settled with completion [c]. *)
Definition await {A} (c : Completion A) : M A := fun w => (c, w).

Declare Scope js_scope.
Delimit Scope js_scope with js.
Notation "x <- m ;; k" := (bind m (fun x => k))
  (at level 100, m at next level, right associativity) : js_scope.
Notation "m ;;; k" := (bind m (fun _ => k))
  (at level 100, right associativity) : js_scope.
Local Open Scope js_scope.

Definition when (b : bool) (m : M unit) : M unit := if b then m else ret tt.

(** Primitive accesses. Naming [localStorage] or [window.location] where
    [window] is undefined throws a [ReferenceError]. *)
Definition read_authToken : M (option string) := fun w => (Normal (authToken w), w).

Definition write_authToken (t : option string) : M unit := fun w =>
  (Normal tt, mkWorld t (window w)).

Definition typeof_window_defined : M bool := fun w => (Normal (bool_decide (is_Some (window w))), w).

Definition localStorage_getItem (key : string) : M (option string) := fun w =>
  match window w with
  | Some win => (Normal (localStorage win !! key), w)
  | None => (Throw (ErrorInstance "localStorage is not defined"), w)
  end.

Definition localStorage_setItem (key value : string) : M unit := fun w =>
  match window w with
  | Some win =>
      (Normal tt, mkWorld (authToken w)
                    (Some (mkWindow (<[key := value]> (localStorage win)) (location_href win))))
  | None => (Throw (ErrorInstance "localStorage is not defined"), w)
  end.

Definition localStorage_removeItem (key : string) : M unit := fun w =>
  match window w with
  | Some win =>
      (Normal tt, mkWorld (authToken w)
                    (Some (mkWindow (delete key (localStorage win)) (location_href win))))
  | None => (Throw (ErrorInstance "localStorage is not defined"), w)
  end.

Definition window_location_assign (href : string) : M unit := fun w =>
  match window w with
  | Some win => (Normal tt, mkWorld (authToken w) (Some (mkWindow (localStorage win) href)))
  | None => (Throw (ErrorInstance "window is not defined"), w)
  end.

(** ** Auth token management *)

Definition setAuthToken (token : string) : M unit :=
  write_authToken (Some token) ;;;
  hasWindow <- typeof_window_defined ;;
  when hasWindow (localStorage_setItem "authToken" token).

Definition getAuthToken : M (option string) :=
  current <- read_authToken ;;
  hasWindow <- typeof_window_defined ;;
  when (negb (truthy current) && hasWindow)
       (stored <- localStorage_getItem "authToken" ;; write_authToken stored) ;;;
  read_authToken.

Definition clearAuthToken : M unit :=
  write_authToken None ;;;
  hasWindow <- typeof_window_defined ;;
  when hasWindow (localStorage_removeItem "authToken").

(** ** [apiRequest] *)

(** [ApiResponse<T>] *)
Record ApiResponse (T : Type) : Type := mkApiResponse {
  success : bool;
  data : option T;
  message : option string;
  error : option string
}.
Arguments mkApiResponse {T} _ _ _ _.
Arguments success {T} _.
Arguments data {T} _.
Arguments message {T} _.
Arguments error {T} _.

(** The members of [RequestInit] the callers set. *)
Record RequestInit : Type := mkRequestInit {
  method : option string;
  headers : option (gmap string string);
  body : option string
}.

Definition no_options : RequestInit := mkRequestInit None None None.

(** The second argument of [fetch] as [apiRequest] builds it. *)
Record FetchInit : Type := mkFetchInit {
  init_method : option string;
  init_headers : gmap string string;
  init_body : option string;
  init_cache : string
}.

(** A [Response]: its status, and what awaiting [text()] and [json()] gives. *)
Module Response.
Record t (T : Type) : Type := mk {
  status : Z;
  text : Completion string;
  json : Completion T
}.
Arguments mk {T} _ _ _.
Arguments status {T} _.
Arguments text {T} _.
Arguments json {T} _.

(** [response.ok]: the status is in the range 200 to 299. *)
Definition ok {T} (r : t T) : bool := (200 <=? status r) && (status r <=? 299).
End Response.

Section Client.
(** The constant computed once by [getApiBaseUrl()]. *)
Variable API_BASE_URL : string.
Context {JS : Platform}.
(** The type of the parsed JSON payload. *)
Context {T : Type}.
(** The network: what awaiting [fetch(url, init)] gives. *)
Variable fetch : string -> FetchInit -> Completion (Response.t T).

Definition request_headers (token : option string) (options : RequestInit)
  : gmap string string :=
  let headers : gmap string string :=
    default ∅ (headers options) ∪ {[ "Content-Type" := "application/json" ]} in
  match token with
  | Some t => if truthy_string t then <["Authorization" := "Bearer " +:+ t]> headers else headers
  | None => headers
  end.

(** [{ headers, ...options, cache: 'no-cache' }]: a [headers] member of
    [options] replaces the merged one. *)
Definition fetch_init (token : option string) (options : RequestInit) : FetchInit :=
  mkFetchInit (method options)
              (default (request_headers token options) (headers options))
              (body options)
              "no-cache".

Definition error_message (e : Thrown) : string :=
  match e with
  | ErrorInstance m => m
  | OtherThrown => "Unknown error occurred"
  end.

Definition apiRequest (endpoint : string) (options : RequestInit) : M (ApiResponse T) :=
  try_catch
    (token <- getAuthToken ;;
     let url := API_BASE_URL +:+ endpoint in
     response <- await (fetch url (fetch_init token options)) ;;
     if Response.status response =? 401 then
       clearAuthToken ;;;
       hasWindow <- typeof_window_defined ;;
       when hasWindow (window_location_assign "/login") ;;;
       throw (ErrorInstance "Authentication failed")
     else if negb (Response.ok response) then
       errorText <- await (Response.text response) ;;
       throw (ErrorInstance ("HTTP error! status: " +:+ Number_toString (Response.status response)
                             +:+ " - " +:+ errorText))
     else
       json <- await (Response.json response) ;;
       ret (mkApiResponse true (Some json) None None))
    (fun error => ret (mkApiResponse false None None (Some (error_message error)))).
End Client.

(** ** [URLSearchParams] *)

Module URLSearchParams.
(** The list of name-value pairs, in insertion order. *)
Definition t : Type := list (string * string).

Definition new : t := [].

Definition append (params : t) (name value : string) : t := params ++ [(name, value)].

(** Bytes the [application/x-www-form-urlencoded] serializer leaves as they
    are: ASCII letters and digits, [*], [-], [.] and [_]. *)
Definition unreserved (c : ascii) : bool :=
  let n := N_of_ascii c in
  ((48 <=? n) && (n <=? 57) || (65 <=? n) && (n <=? 90) || (97 <=? n) && (n <=? 122)
   || (n =? 42) || (n =? 45) || (n =? 46) || (n =? 95))%N.

Definition hex_digit (n : N) : ascii :=
  ascii_of_N (if (n <? 10)%N then 48 + n else 55 + n)%N.

Definition encode_byte (c : ascii) : string :=
  let n := N_of_ascii c in
  if (n =? 32)%N then "+"
  else if unreserved c then String c ""
  else String "%" (String (hex_digit (n / 16)) (String (hex_digit (n mod 16)) "")).

Fixpoint encode (s : string) : string :=
  match s with
  | EmptyString => ""
  | String c s' => encode_byte c +:+ encode s'
  end.

Definition pair_toString (p : string * string) : string :=
  encode (fst p) +:+ "=" +:+ encode (snd p).

(** [params.toString()], which a template literal calls. *)
Fixpoint toString (params : t) : string :=
  match params with
  | [] => ""
  | p :: rest =>
      match rest with
      | [] => pair_toString p
      | _ :: _ => pair_toString p +:+ "&" +:+ toString rest
      end
  end.
End URLSearchParams.

(** ** The per-resource API modules *)

(** A member of a record as a [Set] tells values apart: missing
    ([undefined]), [null], or a string. *)
Inductive Member : Type :=
  | Undefined
  | Null
  | Text (s : string).

#[global] Instance Member_eq_dec : EqDecision Member.
Proof. solve_decision. Defined.

Definition Member_to_option (m : Member) : option (option string) :=
  match m with
  | Undefined => None
  | Null => Some None
  | Text s => Some (Some s)
  end.

Definition Member_of_option (o : option (option string)) : Member :=
  match o with
  | None => Undefined
  | Some None => Null
  | Some (Some s) => Text s
  end.

#[global] Instance Member_countable : Countable Member.
Proof.
  apply (inj_countable' Member_to_option Member_of_option). by intros [].
Defined.

(** The string of a member read through [?.], which stops at [undefined]
    and at [null] alike. *)
Definition member_text (m : Member) : option string :=
  match m with
  | Text s => Some s
  | Undefined | Null => None
  end.

(** Modelled from the spec: the type declarations of [lib/types.ts], which
    the components import. One record covers [Booking], [InsuranceRequest]
    and [GeneralRequest]: the identifier, brand, model, year, status and
    creation timestamp they share, and the phone and total price of a
    booking. Fields the components read through [?.] or test for truthiness
    are optional, [None] standing for [undefined] and for [null]; the phone,
    which the dashboard also collects in a [Set], keeps the two apart. *)
Record Entity : Type := mkEntity {
  _id : option string;
  phone : Member;
  brand : option string;
  model : option string;
  year : option string;
  status : string;
  totalPrice : option Z;
  createdAt : string
}.

Module bookingsApi.
Record Payload : Type := mkPayload { bookings : option (list Entity); total : Z }.

Definition getAll_params {JS : Platform} (statusFilter : option string) (skip limit : option Z)
  : URLSearchParams.t :=
  let skip := default 0 skip in
  let limit := default 50 limit in
  let params := URLSearchParams.new in
  let params :=
    match statusFilter with
    | Some s => if truthy_string s then URLSearchParams.append params "status_filter" s
                else params
    | None => params
    end in
  let params := URLSearchParams.append params "skip" (Number_toString skip) in
  let params := URLSearchParams.append params "limit" (Number_toString limit) in
  params.

Definition getAll_query {JS : Platform} (statusFilter : option string) (skip limit : option Z)
  : string :=
  URLSearchParams.toString (getAll_params statusFilter skip limit).

Definition getAll {JS : Platform} API_BASE_URL
    (fetch : string -> FetchInit -> Completion (Response.t Payload))
    (statusFilter : option string) (skip limit : option Z) : M (ApiResponse Payload) :=
  apiRequest API_BASE_URL fetch ("/admin/bookings?" +:+ getAll_query statusFilter skip limit)
             no_options.
End bookingsApi.

Module insuranceRequestsApi.
Record Payload : Type := mkPayload { requests : option (list Entity); total : Z }.

Definition getAll_params {JS : Platform} (statusFilter : option string) (skip limit : option Z)
  : URLSearchParams.t :=
  let skip := default 0 skip in
  let limit := default 50 limit in
  let params := URLSearchParams.new in
  let params :=
    match statusFilter with
    | Some s => if truthy_string s then URLSearchParams.append params "status_filter" s
                else params
    | None => params
    end in
  let params := URLSearchParams.append params "skip" (Number_toString skip) in
  let params := URLSearchParams.append params "limit" (Number_toString limit) in
  params.

Definition getAll_query {JS : Platform} (statusFilter : option string) (skip limit : option Z)
  : string :=
  URLSearchParams.toString (getAll_params statusFilter skip limit).

Definition getAll {JS : Platform} API_BASE_URL
    (fetch : string -> FetchInit -> Completion (Response.t Payload))
    (statusFilter : option string) (skip limit : option Z) : M (ApiResponse Payload) :=
  apiRequest API_BASE_URL fetch
             ("/admin/insurance-requests?" +:+ getAll_query statusFilter skip limit)
             no_options.
End insuranceRequestsApi.

Module generalRequestsApi.
Record Payload : Type := mkPayload { requests : option (list Entity); total : Z }.

Definition getAll_params {JS : Platform} (skip limit : option Z) : URLSearchParams.t :=
  let skip := default 0 skip in
  let limit := default 50 limit in
  let params := URLSearchParams.new in
  let params := URLSearchParams.append params "skip" (Number_toString skip) in
  let params := URLSearchParams.append params "limit" (Number_toString limit) in
  params.

Definition getAll_query {JS : Platform} (skip limit : option Z) : string :=
  URLSearchParams.toString (getAll_params skip limit).

Definition getAll {JS : Platform} API_BASE_URL
    (fetch : string -> FetchInit -> Completion (Response.t Payload))
    (skip limit : option Z) : M (ApiResponse Payload) :=
  apiRequest API_BASE_URL fetch ("/admin/car-requests?" +:+ getAll_query skip limit)
             no_options.
End generalRequestsApi.

(** ** String methods used by the table components *)

(** [s.includes(sub)]: [sub] occurs in [s] as a contiguous substring. *)
Fixpoint includes (s sub : string) : bool :=
  String.prefix sub s ||
  match s with
  | EmptyString => false
  | String _ s' => includes s' sub
  end.

(** [field?.toLowerCase().includes(filter.toLowerCase())]; an absent field
    short-circuits the chain to [undefined], which is falsy. *)
Definition lower_includes {JS : Platform} (field : option string) (filter : string) : bool :=
  match field with
  | Some f => includes (toLowerCase f) (toLowerCase filter)
  | None => false
  end.

(** [field?.includes(filter)] *)
Definition plain_includes (field : option string) (filter : string) : bool :=
  match field with
  | Some f => includes f filter
  | None => false
  end.

(** ** The table components *)

Definition with_status (value : string) (row : Entity) : Entity :=
  mkEntity (_id row) (phone row) (brand row) (model row) (year row) value
           (totalPrice row) (createdAt row).

(** [old.map((row, index) => index === rowIndex ? { ...row, status: value } : row)] *)
Definition map_status (rowIndex : nat) (value : string) (old : list Entity) : list Entity :=
  imap (fun index row => if bool_decide (index = rowIndex) then with_status value row else row)
       old.

(** The four [useState] cells every table component holds. *)
Module Table.
Record State : Type := mkState {
  data : list Entity;
  globalFilter : string;
  statusFilter : string;
  isLoading : bool
}.

(** [setData(updater)] *)
Definition setData (updater : list Entity -> list Entity) (st : State) : State :=
  mkState (updater (data st)) (globalFilter st) (statusFilter st) (isLoading st).

(** A call of [xApi.updateStatus(id, status)]. *)
Record UpdateCall : Type := mkUpdateCall { call_id : string; call_status : string }.

(** [updateData] up to its first [await]. *)
Inductive Started (S : Type) : Type :=
  | Returned (st : S)
      (** the guard is false: the function returns at once *)
  | Rejected (e : Thrown) (st : S)
      (** the row is [undefined]: reading its [_id] throws *)
  | Awaiting (captured : Entity) (call : UpdateCall) (st : S).
      (** the optimistic write is done and the backend call is in flight *)
Arguments Returned {S} st.
Arguments Rejected {S} e st.
Arguments Awaiting {S} captured call st.

Definition state_of {S} (s : Started S) : S :=
  match s with
  | Returned st | Rejected _ st | Awaiting _ _ st => st
  end.

(** The backend calls issued so far. *)
Definition calls_of {S} (s : Started S) : list UpdateCall :=
  match s with
  | Returned _ | Rejected _ _ => []
  | Awaiting _ call _ => [call]
  end.
End Table.

Definition undefined_id : Thrown :=
  ErrorInstance "Cannot read properties of undefined (reading '_id')".

Module BookingsDataTable.
Import Table.

(** The argument the fetch effect passes to [bookingsApi.getAll]. *)
Definition fetchData_statusFilter (st : State) : option string :=
  if negb (String.eqb (statusFilter st) "all") then Some (statusFilter st) else None.

Definition filteredData {JS : Platform} (st : State) : list Entity :=
  let filtered := data st in
  let filtered :=
    if truthy_string (globalFilter st) then
      List.filter (fun item =>
                     lower_includes (brand item) (globalFilter st)
                     || lower_includes (model item) (globalFilter st)
                     || lower_includes (year item) (globalFilter st)
                     || plain_includes (member_text (phone item)) (globalFilter st))
                  filtered
    else filtered in
  filtered.

(** [updateData] up to its [await]. The callback is rebuilt whenever [data]
    changes, so the [data] it closes over is the state the updater of
    [setData] receives. *)
Definition updateData_start (rowIndex : nat) (columnId value : string) (st : State)
  : Started State :=
  let booking := data st !! rowIndex in
  if String.eqb columnId "status" then
    match booking with
    | None => Rejected undefined_id st
    | Some booking =>
        match _id booking with
        | Some id =>
            if truthy_string id then
              Awaiting booking (mkUpdateCall id value) (setData (map_status rowIndex value) st)
            else Returned st
        | None => Returned st
        end
    end
  else Returned st.

(** The continuation after [await bookingsApi.updateStatus(...)], the call
    having settled as [settled]: a failure result is thrown inside the [try],
    and the [catch] handler, which a rejection reaches as well, writes the
    captured status back. *)
Definition updateData_resume {T} (rowIndex : nat) (booking : Entity)
    (settled : Completion (ApiResponse T)) (st : State) : State :=
  match settled with
  | Normal response =>
      if negb (success response) then setData (map_status rowIndex (status booking)) st
      else st
  | Throw _ => setData (map_status rowIndex (status booking)) st
  end.

(** One whole call, with no other event between its two halves. *)
Definition updateData {T} (rowIndex : nat) (columnId value : string)
    (settled : Completion (ApiResponse T)) (st : State) : State :=
  match updateData_start rowIndex columnId value st with
  | Awaiting booking _ st' => updateData_resume rowIndex booking settled st'
  | Returned st' | Rejected _ st' => st'
  end.
End BookingsDataTable.

(** A component together with the module variable [globalCachedData]. *)
Module CachedTable.
Record Store : Type := mkStore {
  globalCachedData : option (list Entity);
  component : Table.State
}.

Definition data (s : Store) : list Entity := Table.data (component s).

(** [setData((old) => { const newData = f(old); globalCachedData = newData; return newData; })] *)
Definition setData_caching (f : list Entity -> list Entity) (s : Store) : Store :=
  let newData := f (Table.data (component s)) in
  mkStore (Some newData) (Table.setData (fun _ => newData) (component s)).

(** [setData(f)], which leaves the module variable alone. *)
Definition setData (f : list Entity -> list Entity) (s : Store) : Store :=
  mkStore (globalCachedData s) (Table.setData f (component s)).
End CachedTable.

Module InsuranceDataTable.
Import Table CachedTable.

Definition filteredData {JS : Platform} (st : Table.State) : list Entity :=
  let filtered := Table.data st in
  let filtered :=
    if negb (String.eqb (statusFilter st) "all") then
      List.filter (fun item => String.eqb (status item) (statusFilter st)) filtered
    else filtered in
  let filtered :=
    if truthy_string (globalFilter st) then
      List.filter (fun item =>
                     lower_includes (brand item) (globalFilter st)
                     || lower_includes (model item) (globalFilter st)
                     || lower_includes (year item) (globalFilter st))
                  filtered
    else filtered in
  filtered.

Definition updateData_start (rowIndex : nat) (columnId value : string) (s : Store)
  : Started Store :=
  let request := CachedTable.data s !! rowIndex in
  if String.eqb columnId "status" then
    match request with
    | None => Rejected undefined_id s
    | Some request =>
        match _id request with
        | Some id =>
            if truthy_string id then
              Awaiting request (mkUpdateCall id value)
                       (setData_caching (map_status rowIndex value) s)
            else Returned s
        | None => Returned s
        end
    end
  else Returned s.

Definition updateData_resume {T} (rowIndex : nat) (request : Entity)
    (settled : Completion (ApiResponse T)) (s : Store) : Store :=
  match settled with
  | Normal response =>
      if negb (success response) then
        CachedTable.setData (map_status rowIndex (status request)) s
      else s
  | Throw _ => CachedTable.setData (map_status rowIndex (status request)) s
  end.

Definition updateData {T} (rowIndex : nat) (columnId value : string)
    (settled : Completion (ApiResponse T)) (s : Store) : Store :=
  match updateData_start rowIndex columnId value s with
  | Awaiting request _ s' => updateData_resume rowIndex request settled s'
  | Returned s' | Rejected _ s' => s'
  end.
End InsuranceDataTable.

Module RequestsDataTable.
Import Table CachedTable.

Definition filteredData {JS : Platform} (st : Table.State) : list Entity :=
  let filtered := Table.data st in
  let filtered :=
    if negb (String.eqb (statusFilter st) "all") then
      List.filter (fun item => String.eqb (status item) (statusFilter st)) filtered
    else filtered in
  let filtered :=
    if truthy_string (globalFilter st) then
      List.filter (fun item =>
                     lower_includes (brand item) (globalFilter st)
                     || lower_includes (model item) (globalFilter st)
                     || lower_includes (year item) (globalFilter st))
                  filtered
    else filtered in
  filtered.

Definition updateData_start (rowIndex : nat) (columnId value : string) (s : Store)
  : Started Store :=
  let request := CachedTable.data s !! rowIndex in
  if String.eqb columnId "status" then
    match request with
    | None => Rejected undefined_id s
    | Some request =>
        match _id request with
        | Some id =>
            if truthy_string id then
              Awaiting request (mkUpdateCall id value)
                       (setData_caching (map_status rowIndex value) s)
            else Returned s
        | None => Returned s
        end
    end
  else Returned s.

Definition updateData_resume {T} (rowIndex : nat) (request : Entity)
    (settled : Completion (ApiResponse T)) (s : Store) : Store :=
  match settled with
  | Normal response =>
      if negb (success response) then
        CachedTable.setData (map_status rowIndex (status request)) s
      else s
  | Throw _ => CachedTable.setData (map_status rowIndex (status request)) s
  end.

Definition updateData {T} (rowIndex : nat) (columnId value : string)
    (settled : Completion (ApiResponse T)) (s : Store) : Store :=
  match updateData_start rowIndex columnId value s with
  | Awaiting request _ s' => updateData_resume rowIndex request settled s'
  | Returned s' | Rejected _ s' => s'
  end.
End RequestsDataTable.

(** ** [Array.prototype.sort] on a short array *)

Section ArraySort.
Context {A : Type}.
(** [comparefn(a, b)]; [None] stands for [NaN]. *)
Variable comparefn : A -> A -> option Z.

(** The abstract operation SortCompare reads a [NaN] result as [+0]. *)
Definition SortCompare (x y : A) : Z := default 0 (comparefn x y).

(** The sort of V8 on an array of fewer than 64 elements. It first takes the
    longest run at the start of the array: the elements after the first two
    are added as long as each compares with its predecessor as the second
    does with the first. A strictly descending run is reversed. *)
Fixpoint run_rest (descending : bool) (previous : A) (l : list A) : list A * list A :=
  match l with
  | [] => ([], [])
  | current :: l' =>
      let order := SortCompare current previous in
      if (if descending then 0 <=? order else order <? 0) then ([], l)
      else let (run, rest) := run_rest descending current l' in (current :: run, rest)
  end.

Definition CountAndMakeRun (l : list A) : list A * list A :=
  match l with
  | first :: second :: l' =>
      let descending := SortCompare second first <? 0 in
      let (run, rest) := run_rest descending second l' in
      (if descending then rev (first :: second :: run) else first :: second :: run, rest)
  | _ => (l, [])
  end.

(** Each of the remaining elements is then inserted into the run at the
    position a binary search finds for it between [left] and [right]. *)
Fixpoint binary_search (fuel : nat) (pivot : A) (sorted : list A) (left right : nat) : nat :=
  match fuel with
  | O => left
  | S fuel' =>
      if (left <? right)%nat then
        let mid := (left + (right - left) / 2)%nat in
        match sorted !! mid with
        | Some m => if SortCompare pivot m <? 0
                    then binary_search fuel' pivot sorted left mid
                    else binary_search fuel' pivot sorted (mid + 1)%nat right
        | None => left
        end
      else left
  end.

Definition binary_insert (sorted : list A) (pivot : A) : list A :=
  let position := binary_search (length sorted) pivot sorted 0 (length sorted) in
  take position sorted ++ pivot :: drop position sorted.

(** A longer array V8 cuts into several runs, which it merges; for a
    comparator that orders by a key the result is the same, the one stably
    sorted arrangement. *)
Definition short_array_sort (l : list A) : list A :=
  let (run, rest) := CountAndMakeRun l in foldl binary_insert run rest.
End ArraySort.

(** A platform to run the samples on: ASCII lower-casing, decimal digits,
    the sort of a short array. It agrees with every engine on ASCII text, on
    safe integers and on comparators that order by a key, and with V8 on
    every comparator for arrays of fewer than 64 elements. *)
#[global, program] Instance ascii_platform : Platform := {|
  toLowerCase := ascii_toLowerCase;
  Number_toString := decimal_digits;
  Array_sort := @short_array_sort
|}.
Next Obligation. reflexivity. Qed.
Next Obligation. reflexivity. Qed.
Next Obligation.
  intros A comparefn arr.
  assert (run_rest_app :
          forall d, forall l prev run rest, run_rest comparefn d prev l = (run, rest) -> l = run ++ rest).
  {
    intros d.
    induction l as [|c l IH]; intros prev run rest H; cbn in H.
    - by injection H as <- <-.
    - destruct (if d then 0 <=? SortCompare comparefn c prev else SortCompare comparefn c prev <? 0).
      + by injection H as <- <-.
      + destruct (run_rest comparefn d c l) as [r o] eqn:E. injection H as <- <-.
        cbn. f_equal. by apply (IH c).
  }
  assert (binary_insert_perm :
          forall sorted pivot, Permutation (binary_insert comparefn sorted pivot) (sorted ++ [pivot])).
  {
    intros sorted pivot. unfold binary_insert.
    set (p := binary_search comparefn _ _ _ _ _).
    rewrite <- Permutation_middle, Permutation_cons_append.
    by rewrite take_drop.
  }
  assert (foldl_perm :
          forall rest cur, Permutation (foldl (binary_insert comparefn) cur rest) (cur ++ rest)).
  {
    induction rest as [|x rest IH]; intros cur; cbn.
    - by rewrite app_nil_r.
    - rewrite IH, binary_insert_perm. by rewrite <- app_assoc.
  }
  assert (CountAndMakeRun_perm :
          forall l run rest, CountAndMakeRun comparefn l = (run, rest) -> Permutation (run ++ rest) l).
  {
    intros l run rest H. destruct l as [|a [|b l]]; cbn in H; try (by injection H as <- <-).
    destruct (run_rest comparefn _ b l) as [r o] eqn:E. apply run_rest_app in E. subst l.
    injection H as <- <-.
    destruct (SortCompare comparefn b a <? 0); [|reflexivity].
    change (Permutation (rev (a :: b :: r) ++ o) ((a :: b :: r) ++ o)).
    by rewrite <- Permutation_rev.
  }
  assert (short_array_sort_perm :
          forall l, Permutation (short_array_sort comparefn l) l).
  {
    intros l.
    unfold short_array_sort. destruct (CountAndMakeRun comparefn l) as [run rest] eqn:E.
    rewrite foldl_perm. by apply CountAndMakeRun_perm.
  }
  apply short_array_sort_perm.
Qed.
Next Obligation.
  intros A comparefn key arr Hordered.
  set (P := fun a => In a arr).
  assert (Hkey : forall x y, P x -> P y -> SortCompare comparefn x y = key y - key x).
  { intros x y Hx Hy. unfold SortCompare. by rewrite (Hordered x y Hx Hy). }
  assert (run_rest_app :
          forall d, forall l prev run rest, run_rest comparefn d prev l = (run, rest) -> l = run ++ rest).
  {
    intros d.
    induction l as [|c l IH]; intros prev run rest H; cbn in H.
    - by injection H as <- <-.
    - destruct (if d then 0 <=? SortCompare comparefn c prev else SortCompare comparefn c prev <? 0).
      + by injection H as <- <-.
      + destruct (run_rest comparefn d c l) as [r o] eqn:E. injection H as <- <-.
        cbn. f_equal. by apply (IH c).
  }
  assert (binary_insert_perm :
          forall sorted pivot, Permutation (binary_insert comparefn sorted pivot) (sorted ++ [pivot])).
  {
    intros sorted pivot. unfold binary_insert.
    set (p := binary_search comparefn _ _ _ _ _).
    rewrite <- Permutation_middle, Permutation_cons_append.
    by rewrite take_drop.
  }
  assert (foldl_perm :
          forall rest cur, Permutation (foldl (binary_insert comparefn) cur rest) (cur ++ rest)).
  {
    induction rest as [|x rest IH]; intros cur; cbn.
    - by rewrite app_nil_r.
    - rewrite IH, binary_insert_perm. by rewrite <- app_assoc.
  }
  assert (CountAndMakeRun_perm :
          forall l run rest, CountAndMakeRun comparefn l = (run, rest) -> Permutation (run ++ rest) l).
  {
    intros l run rest H. destruct l as [|a [|b l]]; cbn in H; try (by injection H as <- <-).
    destruct (run_rest comparefn _ b l) as [r o] eqn:E. apply run_rest_app in E. subst l.
    injection H as <- <-.
    destruct (SortCompare comparefn b a <? 0); [|reflexivity].
    change (Permutation (rev (a :: b :: r) ++ o) ((a :: b :: r) ++ o)).
    by rewrite <- Permutation_rev.
  }
  assert (SS_app :
          forall (R : A -> A -> Prop), forall l1 l2,
          StronglySorted R l1 -> StronglySorted R l2 ->
          (forall a b, In a l1 -> In b l2 -> R a b) ->
          StronglySorted R (l1 ++ l2)).
  {
    intros R.
    induction l1 as [|x l1 IH]; intros l2 H1 H2 Hc; [exact H2|].
    apply StronglySorted_inv in H1 as [H1 Hx]. cbn. constructor.
    - apply IH; [exact H1|exact H2|]. intros a b Ha Hb. apply Hc; [by right|exact Hb].
    - rewrite Forall_app. split; [exact Hx|].
      rewrite List.Forall_forall. intros b Hb. apply Hc; [by left|exact Hb].
  }
  assert (SS_app_inv :
          forall (R : A -> A -> Prop), forall l1 l2,
          StronglySorted R (l1 ++ l2) ->
          StronglySorted R l1 /\ StronglySorted R l2 /\ (forall a b, In a l1 -> In b l2 -> R a b)).
  {
    intros R.
    induction l1 as [|x l1 IH]; intros l2 H.
    - split; [constructor|]. split; [exact H|]. intros a b [].
    - cbn in H. apply StronglySorted_inv in H as [H Hx].
      destruct (IH l2 H) as (H1 & H2 & Hc). rewrite Forall_app in Hx. destruct Hx as [Hx1 Hx2].
      split; [by constructor|]. split; [exact H2|].
      intros a b [<-|Ha] Hb.
      + rewrite List.Forall_forall in Hx2. by apply Hx2.
      + by apply Hc.
  }
  assert (SS_impl :
          forall (R R' : A -> A -> Prop), forall l,
          (forall x y, R x y -> R' x y) -> StronglySorted R l -> StronglySorted R' l).
  {
    intros R R'.
    intros l Himpl H. induction H as [|x l H IH Hx]; constructor; [exact IH|].
    eapply Forall_impl; [exact Hx|]. intros y. apply Himpl.
  }
  assert (SS_rev :
          forall (R : A -> A -> Prop), forall l,
          StronglySorted R l -> StronglySorted (fun x y => R y x) (rev l)).
  {
    intros R.
    induction l as [|x l IH]; intros H; [constructor|].
    apply StronglySorted_inv in H as [H Hx]. cbn [rev]. apply SS_app.
    - by apply IH.
    - repeat constructor.
    - intros a b Ha [<-|[]]. rewrite List.Forall_forall in Hx. apply Hx.
      by apply in_rev.
  }
  assert (filter_rev' :
          forall (f : A -> bool), forall l, List.filter f (rev l) = rev (List.filter f l)).
  {
    intros f.
    induction l as [|x l IH]; [reflexivity|]. cbn [rev List.filter].
    rewrite List.filter_app, IH. cbn. destruct (f x); cbn; [reflexivity|by rewrite app_nil_r].
  }
  assert (strict_filter :
          forall l t,
          StronglySorted (fun x y => key x < key y) l ->
          (length (List.filter (fun a => (key a =? t)%Z) l) <= 1)%nat).
  {
    induction l as [|x l IH]; intros t H; [cbn; lia|].
    apply StronglySorted_inv in H as [H Hx]. cbn [List.filter].
    destruct (key x =? t) eqn:E; [|by apply IH].
    apply Z.eqb_eq in E. cbn [length].
    assert (Hnone : List.filter (fun a => key a =? t) l = []).
    { clear IH H. induction l as [|y l IH]; [reflexivity|].
      apply Forall_cons in Hx as [Hy Hx]. cbn. destruct (key y =? t) eqn:Ey; [lia|by apply IH]. }
    rewrite Hnone. cbn. lia.
  }
  assert (rev_short :
          forall l : list A, (length l <= 1)%nat -> rev l = l).
  {
    intros [|x [|y l]] H; cbn in *; try reflexivity. lia.
  }
  assert (run_rest_ascending :
          forall l prev run rest,
          run_rest comparefn false prev l = (run, rest) -> P prev -> Forall P l ->
          Sorted (descending_by key) (prev :: run)).
  {
    induction l as [|c l IH]; intros prev run rest H Hp Hl; cbn in H.
    - injection H as <- <-. repeat constructor.
    - apply Forall_cons in Hl as [Hc Hl]. rewrite (Hkey c prev Hc Hp) in H.
      destruct (key prev - key c <? 0) eqn:E.
      + injection H as <- <-. repeat constructor.
      + destruct (run_rest comparefn false c l) as [r o] eqn:Er. injection H as <- <-.
        constructor; [by apply (IH c r o)|]. constructor. unfold descending_by. lia.
  }
  assert (run_rest_descending :
          forall l prev run rest,
          run_rest comparefn true prev l = (run, rest) -> P prev -> Forall P l ->
          Sorted (fun x y => key x < key y) (prev :: run)).
  {
    induction l as [|c l IH]; intros prev run rest H Hp Hl; cbn in H.
    - injection H as <- <-. repeat constructor.
    - apply Forall_cons in Hl as [Hc Hl]. rewrite (Hkey c prev Hc Hp) in H.
      destruct (0 <=? key prev - key c) eqn:E.
      + injection H as <- <-. repeat constructor.
      + destruct (run_rest comparefn true c l) as [r o] eqn:Er. injection H as <- <-.
        constructor; [by apply (IH c r o)|]. constructor. lia.
  }
  assert (CountAndMakeRun_sorted :
          forall l run rest,
          CountAndMakeRun comparefn l = (run, rest) -> Forall P l ->
          exists start, l = start ++ rest
          /\ StronglySorted (descending_by key) run
          /\ forall t, List.filter (fun a => key a =? t) run = List.filter (fun a => key a =? t) start).
  {
    intros l run rest H Hl. destruct l as [|a [|b l]].
    - injection H as <- <-. exists []. repeat split. constructor.
    - injection H as <- <-. exists [a]. repeat split. repeat constructor.
    - unfold CountAndMakeRun in H.
      apply Forall_cons in Hl as [Ha Hl]. apply Forall_cons in Hl as [Hb Hl].
      rewrite (Hkey b a Hb Ha) in H.
      destruct (run_rest comparefn _ b l) as [r o] eqn:E. injection H as <- <-.
      pose proof (run_rest_app _ _ _ _ _ E) as ->. apply Forall_app in Hl as [Hr Ho].
      exists (a :: b :: r). split; [reflexivity|].
      destruct (key a - key b <? 0) eqn:Ed.
      + apply run_rest_descending in E; [|exact Hb|by apply Forall_app].
        assert (Hs : StronglySorted (fun x y => key x < key y) (a :: b :: r)).
        { apply Sorted_StronglySorted; [intros x y z; lia|].
          constructor; [exact E|]. constructor. lia. }
        split.
        * eapply SS_impl; [|exact (SS_rev _ _ Hs)].
          intros x y Hxy; cbn in Hxy. unfold descending_by. lia.
        * intros t. change ((rev r ++ [b]) ++ [a]) with (rev (a :: b :: r)).
          rewrite filter_rev'. apply rev_short. by apply strict_filter.
      + apply run_rest_ascending in E; [|exact Hb|by apply Forall_app].
        split; [|reflexivity].
        apply Sorted_StronglySorted; [intros x y z; unfold descending_by; lia|].
        constructor; [exact E|]. constructor. unfold descending_by. lia.
  }
  assert (sorted_lookup :
          forall sorted i m,
          StronglySorted (descending_by key) sorted -> sorted !! i = Some m ->
          Forall (fun y => key m <= key y) (take (S i) sorted)
          /\ Forall (fun y => key y <= key m) (drop i sorted)).
  {
    induction sorted as [|x sorted IH]; intros i m Hs Hi; [discriminate|].
    apply StronglySorted_inv in Hs as [Hs Hx]. destruct i as [|i]; cbn in Hi.
    - injection Hi as ->. cbn. split.
      + constructor; [lia|]. rewrite take_0. constructor.
      + constructor; [lia|]. exact Hx.
    - destruct (IH i m Hs Hi) as [Ht Hd]. cbn. split; [|exact Hd].
      constructor; [|exact Ht].
      rewrite List.Forall_forall in Hx. apply (Hx m).
      apply list_elem_of_In. by eapply list_elem_of_lookup_2.
  }
  assert (binary_search_spec :
          forall fuel pivot sorted left right,
          StronglySorted (descending_by key) sorted -> Forall P sorted -> P pivot ->
          (left <= right <= length sorted)%nat -> (right - left <= fuel)%nat ->
          Forall (fun y => key pivot <= key y) (take left sorted) ->
          Forall (fun y => key y < key pivot) (drop right sorted) ->
          let position := binary_search comparefn fuel pivot sorted left right in
          Forall (fun y => key pivot <= key y) (take position sorted)
          /\ Forall (fun y => key y < key pivot) (drop position sorted)).
  {
    induction fuel as [|fuel IH]; intros pivot sorted left right Hs Hv Hp Hb Hf Hl Hr;
      cbv zeta; cbn [binary_search].
    - assert (left = right) as -> by lia. by split.
    - destruct (left <? right)%nat eqn:E.
      + apply Nat.ltb_lt in E.
        assert (Hmid : (left <= left + (right - left) / 2 < right)%nat).
        { split; [lia|]. pose proof (Nat.div_lt (right - left) 2). lia. }
        set (mid := (left + (right - left) / 2)%nat) in *.
        destruct (sorted !! mid) as [m|] eqn:Em.
        2:{ apply lookup_ge_None in Em. lia. }
        assert (Hm : P m).
        { rewrite List.Forall_forall in Hv. apply Hv, list_elem_of_In.
          by eapply list_elem_of_lookup_2. }
        destruct (sorted_lookup sorted mid m Hs Em) as [Hbefore Hafter].
        rewrite (Hkey pivot m Hp Hm).
        destruct (key m - key pivot <? 0) eqn:Eo.
        * apply IH; try assumption; try lia.
          eapply Forall_impl; [exact Hafter|]. intros y Hy. cbn in Hy. lia.
        * apply IH; try assumption; try lia.
          replace (mid + 1)%nat with (S mid) by lia.
          eapply Forall_impl; [exact Hbefore|]. intros y Hy. cbn in Hy. lia.
      + apply Nat.ltb_ge in E. assert (left = right) as -> by lia. by split.
  }
  assert (binary_insert_sorted :
          forall sorted pivot,
          StronglySorted (descending_by key) sorted -> Forall P sorted -> P pivot ->
          StronglySorted (descending_by key) (binary_insert comparefn sorted pivot)
          /\ forall t, List.filter (fun a => key a =? t) (binary_insert comparefn sorted pivot)
          = List.filter (fun a => key a =? t) (sorted ++ [pivot])).
  {
    intros sorted pivot Hs Hv Hp. unfold binary_insert.
    destruct (binary_search_spec (length sorted) pivot sorted 0%nat (length sorted) Hs Hv Hp)
      as [Hbefore Hafter]; [lia|lia|rewrite take_0; constructor|rewrite drop_all; constructor|].
    set (position := binary_search comparefn _ _ _ _ _) in *.
    pose proof (take_drop position sorted) as Hsplit.
    rewrite <- Hsplit in Hs. apply SS_app_inv in Hs as (Ht & Hd & Hcross).
    split.
    - apply SS_app; [exact Ht| |].
      + constructor; [exact Hd|]. eapply Forall_impl; [exact Hafter|].
        intros y Hy. cbn in Hy. unfold descending_by. lia.
      + intros a b Ha [<-|Hb]; [|by apply Hcross].
        rewrite List.Forall_forall in Hbefore. by apply Hbefore.
    - intros t.
      assert (Hparts : List.filter (fun a => key a =? t) sorted
                       = List.filter (fun a => key a =? t) (take position sorted)
                         ++ List.filter (fun a => key a =? t) (drop position sorted))
        by (by rewrite <- List.filter_app, Hsplit).
      rewrite !List.filter_app, Hparts. cbn [List.filter].
      destruct (key pivot =? t) eqn:E; [|by rewrite app_nil_r].
      apply Z.eqb_eq in E.
      assert (Hnone : forall l, Forall (fun y => key y < key pivot) l ->
                                List.filter (fun a => key a =? t) l = []).
      { induction 1 as [|y l Hy Hl IHl]; [reflexivity|]. cbn.
        destruct (key y =? t) eqn:Ey; [lia|exact IHl]. }
      rewrite (Hnone _ Hafter). by rewrite app_nil_r.
  }
  assert (foldl_sorted :
          forall rest current start,
          StronglySorted (descending_by key) current -> Forall P current -> Forall P rest ->
          (forall t, List.filter (fun a => key a =? t) current = List.filter (fun a => key a =? t) start) ->
          StronglySorted (descending_by key) (foldl (binary_insert comparefn) current rest)
          /\ forall t, List.filter (fun a => key a =? t) (foldl (binary_insert comparefn) current rest)
          = List.filter (fun a => key a =? t) (start ++ rest)).
  {
    induction rest as [|x rest IH]; intros current start Hs Hv Hrest Hsame; cbn.
    - split; [exact Hs|]. intros t. by rewrite app_nil_r.
    - apply Forall_cons in Hrest as [Hx Hrest].
      destruct (binary_insert_sorted current x Hs Hv Hx) as [Hs' Hsame'].
      destruct (IH (binary_insert comparefn current x) (start ++ [x])) as [Hs'' Hsame''];
        [exact Hs'| |exact Hrest| |].
      + rewrite binary_insert_perm. apply Forall_app. split; [exact Hv|by constructor].
      + intros t. rewrite Hsame', !List.filter_app. by rewrite Hsame.
      + split; [exact Hs''|]. intros t. rewrite Hsame''. by rewrite <- app_assoc.
  }
  assert (short_array_sort_sorted :
          forall l,
          Forall P l ->
          StronglySorted (descending_by key) (short_array_sort comparefn l)
          /\ forall t, List.filter (fun a => key a =? t) (short_array_sort comparefn l)
          = List.filter (fun a => key a =? t) l).
  {
    intros l Hl. unfold short_array_sort.
    destruct (CountAndMakeRun comparefn l) as [run rest] eqn:E.
    destruct (CountAndMakeRun_sorted l run rest E Hl) as (start & -> & Hs & Hsame).
    apply CountAndMakeRun_perm in E.
    apply Forall_app in Hl as [Hstart Hrest].
    apply foldl_sorted; try assumption.
    assert (Hall : Forall P (run ++ rest)) by (rewrite E; by apply Forall_app).
    by apply Forall_app in Hall as [? _].
  }
  apply short_array_sort_sorted. by apply List.Forall_forall.
Qed.

(** ** The dashboard page *)

Module DashboardPage.

Record DashboardStats : Type := mkStats {
  totalBookings : Z;
  pendingBookings : Z;
  completedBookings : Z;
  totalRevenue : Z;
  totalInsuranceRequests : Z;
  pendingInsuranceRequests : Z;
  totalCarRequests : Z
}.

(** The six [useState] cells of the page. *)
Record State : Type := mkState {
  stats : option DashboardStats;
  bookings : list Entity;
  insuranceRequests : list Entity;
  generalRequests : list Entity;
  loading : bool;
  error : option string
}.

Definition initial : State := mkState None [] [] [] true None.

Definition setStats (v : option DashboardStats) (st : State) : State :=
  mkState v (bookings st) (insuranceRequests st) (generalRequests st) (loading st) (error st).
Definition setBookings (v : list Entity) (st : State) : State :=
  mkState (stats st) v (insuranceRequests st) (generalRequests st) (loading st) (error st).
Definition setInsuranceRequests (v : list Entity) (st : State) : State :=
  mkState (stats st) (bookings st) v (generalRequests st) (loading st) (error st).
Definition setGeneralRequests (v : list Entity) (st : State) : State :=
  mkState (stats st) (bookings st) (insuranceRequests st) v (loading st) (error st).
Definition setLoading (v : bool) (st : State) : State :=
  mkState (stats st) (bookings st) (insuranceRequests st) (generalRequests st) v (error st).
Definition setError (v : string) (st : State) : State :=
  mkState (stats st) (bookings st) (insuranceRequests st) (generalRequests st) (loading st)
          (Some v).

(** What the four calls of the [Promise.all] resolved to. *)
Record Responses : Type := mkResponses {
  statsResponse : ApiResponse DashboardStats;
  bookingsResponse : ApiResponse bookingsApi.Payload;
  insuranceResponse : ApiResponse insuranceRequestsApi.Payload;
  requestsResponse : ApiResponse generalRequestsApi.Payload
}.

(** [if (response.success && response.data) set(response.data.field || [])] *)
Definition store_slice {P} (response : ApiResponse P) (field : P -> option (list Entity))
    (set : list Entity -> State -> State) (st : State) : State :=
  match success response, data response with
  | true, Some payload => set (default [] (field payload)) st
  | _, _ => st
  end.

(** [fetchDashboardData], the [Promise.all] having settled as [settled]. *)
Definition fetchDashboardData (settled : Completion Responses) (st : State) : State :=
  let st := setLoading true st in
  let st :=
    match settled with
    | Normal r =>
        let st :=
          match success (statsResponse r), data (statsResponse r) with
          | true, Some s => setStats (Some s) st
          | _, _ => st
          end in
        let st := store_slice (bookingsResponse r) bookingsApi.bookings setBookings st in
        let st :=
          store_slice (insuranceResponse r) insuranceRequestsApi.requests
                      setInsuranceRequests st in
        let st :=
          store_slice (requestsResponse r) generalRequestsApi.requests
                      setGeneralRequests st in
        if negb (success (statsResponse r)) then
          setError "Failed to load dashboard statistics" st
        else st
    | Throw _ => setError "Failed to fetch dashboard data." st
    end in
  setLoading false st.

(** An entry of the recent-activity feed: [{ ...record, type, label, statusColor }]. *)
Record Activity : Type := mkActivity {
  entity : Entity;
  type : string;
  label : string;
  statusColor : string
}.

Definition tagBooking (b : Entity) : Activity := mkActivity b "Booking" "Booking" "default".
Definition tagInsurance (i : Entity) : Activity := mkActivity i "Insurance" "Insurance" "secondary".
Definition tagGeneral (g : Entity) : Activity := mkActivity g "General" "Request" "outline".

Definition tagged (bs irs gs : list Entity) : list Activity :=
  map tagBooking bs ++ map tagInsurance irs ++ map tagGeneral gs.

Inductive View : Type :=
  | LoadingView
  | ErrorView (text : string)
  | DashboardView (stats : DashboardStats) (totalAllRequests : Z) (totalCustomers : nat)
                  (bookings insuranceRequests generalRequests : list Entity)
                  (recentActivity : list Activity).

Section WithDate.
Context {JS : Platform}.
(** [new Date(s).getTime()]: the timestamp in milliseconds, [None] for the
    [NaN] of an invalid date. *)
Variable Date_getTime : string -> option Z.

Definition timestamp (a : Activity) : option Z := Date_getTime (createdAt (entity a)).

(** [(a, b) => new Date(b.createdAt).getTime() - new Date(a.createdAt).getTime()] *)
Definition byCreatedAtDesc (a b : Activity) : option Z :=
  match timestamp b, timestamp a with
  | Some tb, Some ta => Some (tb - ta)
  | _, _ => None
  end.

Definition recentActivity (bs irs gs : list Entity) : list Activity :=
  take 5 (Array_sort byCreatedAtDesc (tagged bs irs gs)).

Definition render (st : State) : View :=
  if loading st then LoadingView
  else
    match stats st with
    | Some s =>
        if truthy (error st) then ErrorView (default "" (error st))
        else
          DashboardView s
            (totalBookings s + totalInsuranceRequests s + totalCarRequests s)
            (size (list_to_set (map phone (bookings st)) : gset Member))
            (bookings st) (insuranceRequests st) (generalRequests st)
            (recentActivity (bookings st) (insuranceRequests st) (generalRequests st))
    | None =>
        ErrorView (if truthy (error st) then default "" (error st)
                   else "Failed to load dashboard data")
    end.

(** The page once the effect of the first mount has run to its end. *)
Definition mounted (settled : Completion Responses) : View :=
  render (fetchDashboardData settled initial).
End WithDate.

End DashboardPage.

(** ** The fetch effects and the first render of the table components *)

(** [setIsLoading(v)] *)
Definition setIsLoading (v : bool) (st : Table.State) : Table.State :=
  Table.mkState (Table.data st) (Table.globalFilter st) (Table.statusFilter st) v.

Module BookingsMount.
(** The four [useState] initial values; [initialData || []]. *)
Definition initial (initialData : option (list Entity)) : Table.State :=
  Table.mkState (default [] initialData) "" "all" false.

(** [fetchData] up to its [await]; the call it issues is
    [bookingsApi.getAll(BookingsDataTable.fetchData_statusFilter st)]. *)
Definition fetchData_start (st : Table.State) : Table.State := setIsLoading true st.

(** [fetchData] after its [await], with the [finally] block. The result is
    [None] when [setData] is handed the [undefined] of a payload without a
    [bookings] member, which the row model cannot hold. *)
Definition fetchData_resume (settled : Completion (ApiResponse bookingsApi.Payload))
    (st : Table.State) : option Table.State :=
  match settled with
  | Normal response =>
      match success response, data response with
      | true, Some payload =>
          match bookingsApi.bookings payload with
          | Some rows => Some (setIsLoading false (Table.setData (fun _ => rows) st))
          | None => None
          end
      | _, _ => Some (setIsLoading false st)
      end
  | Throw _ => Some (setIsLoading false st)
  end.
End BookingsMount.

Module InsuranceMount.
(** The first render: [globalCachedData || initialData || []] (an array,
    empty or not, is truthy) and
    [!globalCachedData && (!initialData || initialData.length === 0)]. *)
Definition initial (globalCachedData initialData : option (list Entity)) : CachedTable.Store :=
  let data :=
    match globalCachedData with
    | Some cached => cached
    | None => default [] initialData
    end in
  let isLoading :=
    match globalCachedData with
    | Some _ => false
    | None =>
        match initialData with
        | Some rows => bool_decide (length rows = 0%nat)
        | None => true
        end
    end in
  CachedTable.mkStore globalCachedData (Table.mkState data "" "all" isLoading).

(** [if (!data.length) setIsLoading(true)], then the call
    [insuranceRequestsApi.getAll()]. *)
Definition fetchData_start (s : CachedTable.Store) : CachedTable.Store :=
  if bool_decide (length (CachedTable.data s) = 0%nat) then
    CachedTable.mkStore (CachedTable.globalCachedData s)
                        (setIsLoading true (CachedTable.component s))
  else s.

Definition fetchData_resume
    (settled : Completion (ApiResponse insuranceRequestsApi.Payload))
    (s : CachedTable.Store) : option CachedTable.Store :=
  match settled with
  | Normal response =>
      match success response, data response with
      | true, Some payload =>
          match insuranceRequestsApi.requests payload with
          | Some freshData =>
              Some (CachedTable.mkStore
                      (Some freshData)
                      (setIsLoading false
                         (Table.setData (fun _ => freshData) (CachedTable.component s))))
          | None => None
          end
      | _, _ =>
          Some (CachedTable.mkStore (CachedTable.globalCachedData s)
                                    (setIsLoading false (CachedTable.component s)))
      end
  | Throw _ =>
      Some (CachedTable.mkStore (CachedTable.globalCachedData s)
                                (setIsLoading false (CachedTable.component s)))
  end.
End InsuranceMount.

Module RequestsMount.
Definition initial (globalCachedData initialData : option (list Entity)) : CachedTable.Store :=
  let data :=
    match globalCachedData with
    | Some cached => cached
    | None => default [] initialData
    end in
  let isLoading :=
    match globalCachedData with
    | Some _ => false
    | None =>
        match initialData with
        | Some rows => bool_decide (length rows = 0%nat)
        | None => true
        end
    end in
  CachedTable.mkStore globalCachedData (Table.mkState data "" "all" isLoading).

Definition fetchData_start (s : CachedTable.Store) : CachedTable.Store :=
  if bool_decide (length (CachedTable.data s) = 0%nat) then
    CachedTable.mkStore (CachedTable.globalCachedData s)
                        (setIsLoading true (CachedTable.component s))
  else s.

Definition fetchData_resume
    (settled : Completion (ApiResponse generalRequestsApi.Payload))
    (s : CachedTable.Store) : option CachedTable.Store :=
  match settled with
  | Normal response =>
      match success response, data response with
      | true, Some payload =>
          match generalRequestsApi.requests payload with
          | Some freshData =>
              Some (CachedTable.mkStore
                      (Some freshData)
                      (setIsLoading false
                         (Table.setData (fun _ => freshData) (CachedTable.component s))))
          | None => None
          end
      | _, _ =>
          Some (CachedTable.mkStore (CachedTable.globalCachedData s)
                                    (setIsLoading false (CachedTable.component s)))
      end
  | Throw _ =>
      Some (CachedTable.mkStore (CachedTable.globalCachedData s)
                                (setIsLoading false (CachedTable.component s)))
  end.
End RequestsMount.

(** ** The layout shell and the sidebar *)

(** What the framework's router was asked to do. *)
Inductive Navigation : Type :=
  | Push (href : string)
  | Replace (href : string).

(** The world of [lib/api.ts], the navigations requested so far, and the
    [isAuthenticated] cell of [DashboardLayout]. *)
Record Shell : Type := mkShell {
  shell_world : World;
  navigations : list Navigation;
  isAuthenticated : bool
}.

Module DashboardLayout.
(** The effect of the layout:
    [const token = getAuthToken(); if (!token) router.push("/login"); else setIsAuthenticated(true);] *)
Definition effect (sh : Shell) : Completion Shell :=
  match getAuthToken (shell_world sh) with
  | (Normal token, w') =>
      if negb (truthy token) then
        Normal (mkShell w' (navigations sh ++ [Push "/login"]) (isAuthenticated sh))
      else Normal (mkShell w' (navigations sh) true)
  | (Throw e, _) => Throw e
  end.

(** [if (!isAuthenticated) return null;]: whether the children are rendered. *)
Definition renders_children (sh : Shell) : bool := isAuthenticated sh.

(** A fresh mount of the layout in world [w]: the cell starts [false], then
    the effect runs. *)
Definition mount (w : World) : Completion Shell := effect (mkShell w [] false).
End DashboardLayout.

Module AppSidebar.
(** [clearAuthToken(); router.replace('/login')] *)
Definition handleLogout (sh : Shell) : Completion Shell :=
  match clearAuthToken (shell_world sh) with
  | (Normal _, w') =>
      Normal (mkShell w' (navigations sh ++ [Replace "/login"]) (isAuthenticated sh))
  | (Throw e, _) => Throw e
  end.
End AppSidebar.

(** A reload of the page: the module is evaluated again, so [authToken] is
    [null]; what [window] holds in its storage stays. *)
Definition reload (w : World) : World := mkWorld None (window w).

(** ** The rows of the recent-activity table *)

(** The [variant] of the badge of a row:
    [item.type === 'Booking' ? 'default' : (item.type === 'Insurance' ? 'secondary' : 'outline')] *)
Definition badge_variant (item : DashboardPage.Activity) : string :=
  if String.eqb (DashboardPage.type item) "Booking" then "default"
  else if String.eqb (DashboardPage.type item) "Insurance" then "secondary"
  else "outline".

(** [new Set(bookings.map(b => b.phone)).size], as the page computes it. *)
Definition totalCustomers (bookings : list Entity) : nat :=
  size (list_to_set (map phone bookings) : gset Member).

(** ** Notions used in the statements *)

(** What awaiting the [fetch] of one [apiRequest] call gives, in world [w]. *)
Definition fetched {T} (API_BASE_URL : string)
    (fetch : string -> FetchInit -> Completion (Response.t T))
    (endpoint : string) (options : RequestInit) (w : World) : Completion (Response.t T) :=
  match getAuthToken w with
  | (Normal token, _) => fetch (API_BASE_URL +:+ endpoint) (fetch_init token options)
  | (Throw e, _) => Throw e
  end.

(** The failure result carrying the message [m]. *)
Definition failure {T} (m : string) : ApiResponse T := mkApiResponse false None None (Some m).

(** The token [getAuthToken] resolves in world [w]: the module variable, or
    the stored value when the variable is falsy and there is a [window]. *)
Definition resolved_token (w : World) : option string :=
  if truthy (authToken w) then authToken w
  else match window w with
       | Some win => localStorage win !! "authToken"
       | None => authToken w
       end.

(** The world a 401 answer leaves behind. *)
Definition logged_out (w : World) : World :=
  mkWorld None
    (match window w with
     | Some win => Some (mkWindow (delete "authToken" (localStorage win)) "/login")
     | None => None
     end).

(** Every byte of [s] is one the query serializer leaves as it is. *)
Fixpoint all_unreserved (s : string) : bool :=
  match s with
  | EmptyString => true
  | String c s' => URLSearchParams.unreserved c && all_unreserved s'
  end.

(** The status values of the three resources. *)
Definition known_statuses : list string :=
  [ "pending"; "confirmed"; "completed"; "cancelled"; "new"; "contacted"; "rejected";
    "in-progress"; "resolved"; "not-interested"; "to-follow-up"; "cold-enq";
    "booking-confirmed" ].

(** [sub] occurs in [s] as a contiguous substring. *)
Definition occurs (sub s : string) : Prop := exists pre post, s = pre +:+ sub +:+ post.

(** The bytes [a] and [b] are the same, or the upper-case and the lower-case
    form of one letter of [A]-[Z]. *)
Definition capital (c : ascii) : bool := ((65 <=? N_of_ascii c) && (N_of_ascii c <=? 90))%N.

Definition same_letter (a b : ascii) : bool :=
  Ascii.eqb a b
  || (capital a && (N_of_ascii b =? N_of_ascii a + 32)%N)
  || (capital b && (N_of_ascii a =? N_of_ascii b + 32)%N).

(** Two texts are the same when the case of the letters [A]-[Z] is ignored. *)
Fixpoint equal_ignoring_case (s1 s2 : string) : bool :=
  match s1, s2 with
  | EmptyString, EmptyString => true
  | String a s1', String b s2' => same_letter a b && equal_ignoring_case s1' s2'
  | _, _ => false
  end.

(** [sub] occurs in [s] when the case of the letters [A]-[Z] is ignored:
    a contiguous part of [s] is [sub] up to case. *)
Definition occurs_ignoring_case (sub s : string) : Prop :=
  exists pre part post,
    s = pre +:+ part +:+ post /\ equal_ignoring_case sub part = true.

(** [sub], lower-cased by the engine, occurs in [s], lower-cased by the engine. *)
Definition occurs_lowered {JS : Platform} (sub s : string) : Prop :=
  occurs (toLowerCase sub) (toLowerCase s).

(** The field is present and [filter] is related to its value. *)
Definition field_has (rel : string -> string -> Prop) (filter : string)
    (field : option string) : Prop :=
  exists f, field = Some f /\ rel filter f.

(** The free-text filter as the specification words it, over the fields
    [fields], the status filter being [all]: the empty filter keeps every
    row, and any other filter keeps exactly the rows in one of whose fields
    it occurs, case ignored. *)
Definition text_filter_as_specified (fields : list (Entity -> option string))
    (filteredData : Table.State -> list Entity) (st : Table.State) : Prop :=
  Table.statusFilter st = "all" ->
  (Table.globalFilter st = "" -> filteredData st = Table.data st)
  /\ (Table.globalFilter st <> "" ->
      forall row, In row (filteredData st) <->
                  In row (Table.data st)
                  /\ Exists (fun field =>
                               field_has occurs_ignoring_case (Table.globalFilter st)
                                         (field row)) fields).

(** The status filter as the specification words it, the text filter being
    empty: [all] keeps every row, any other value keeps exactly the rows
    with that status. *)
Definition status_filter_as_specified (filteredData : Table.State -> list Entity)
    (st : Table.State) : Prop :=
  Table.globalFilter st = "" ->
  filteredData st
  = if String.eqb (Table.statusFilter st) "all" then Table.data st
    else List.filter (fun row => String.eqb (status row) (Table.statusFilter st))
                     (Table.data st).

(** The creation time of a feed entry, in milliseconds; [0] stands in for an
    invalid date, which the statements exclude. *)
Definition created (Date_getTime : string -> option Z) (a : DashboardPage.Activity) : Z :=
  default 0 (Date_getTime (createdAt (DashboardPage.entity a))).

(** The entry [a] has a creation time and [b] has one that is not later. *)
Definition not_older (Date_getTime : string -> option Z) (a b : DashboardPage.Activity)
  : Prop :=
  exists ta tb,
    Date_getTime (createdAt (DashboardPage.entity a)) = Some ta
    /\ Date_getTime (createdAt (DashboardPage.entity b)) = Some tb
    /\ tb <= ta.

(** The entry [a] was created at the time [t]. *)
Definition created_at (Date_getTime : string -> option Z) (t : Z)
    (a : DashboardPage.Activity) : bool :=
  bool_decide (Date_getTime (createdAt (DashboardPage.entity a)) = Some t).

(** The entry [b] is not newer than [a], as far as both have a creation time. *)
Definition not_newer (Date_getTime : string -> option Z) (a b : DashboardPage.Activity)
  : Prop :=
  forall ta tb,
    Date_getTime (createdAt (DashboardPage.entity a)) = Some ta ->
    Date_getTime (createdAt (DashboardPage.entity b)) = Some tb ->
    tb <= ta.

(** The records of the three lists, each tagged with its source, in the
    order bookings, insurance requests, general requests. *)
Definition tagged_by_source (bs irs gs : list Entity) : list DashboardPage.Activity :=
  map (fun b => DashboardPage.mkActivity b "Booking" "Booking" "default") bs
  ++ map (fun i => DashboardPage.mkActivity i "Insurance" "Insurance" "secondary") irs
  ++ map (fun g => DashboardPage.mkActivity g "General" "Request" "outline") gs.

(** The recent-activity feed as the specification words it: the first five
    of the tagged records of the three lists, sorted by creation time,
    descending. Of a record whose date does not parse the order asks
    nothing. *)
Definition feed_as_specified (Date_getTime : string -> option Z)
    (bs irs gs : list Entity) (feed : list DashboardPage.Activity) : Prop :=
  exists sorted,
    Permutation sorted (tagged_by_source bs irs gs)
    /\ StronglySorted (not_newer Date_getTime) sorted
    /\ feed = take 5 sorted.

(** The state with another text in the search box. *)
Definition with_globalFilter (text : string) (st : Table.State) : Table.State :=
  Table.mkState (Table.data st) text (Table.statusFilter st) (Table.isLoading st).

(** A row with its status blanked: what an edit of the status must keep. *)
Definition without_status (row : Entity) : Entity := with_status "" row.

(** How often the byte [c] occurs in [s]. *)
Fixpoint count_byte (c : ascii) (s : string) : nat :=
  match s with
  | EmptyString => 0%nat
  | String d s' => ((if Ascii.eqb c d then 1 else 0) + count_byte c s')%nat
  end.

(** Every byte of [s] is unreserved, a plus sign or a percent sign. *)
Fixpoint query_safe (s : string) : bool :=
  match s with
  | EmptyString => true
  | String c s' =>
      (URLSearchParams.unreserved c || Ascii.eqb c "+" || Ascii.eqb c "%") && query_safe s'
  end.

(** The value of a hexadecimal digit, upper case. *)
Definition hex_value (c : ascii) : N :=
  let n := N_of_ascii c in
  (if n <? 58 then n - 48 else n - 55)%N.

(** The reading of a serialized value a form decoder makes: [+] is a space,
    [%XY] the byte with that code. *)
Fixpoint form_decode (s : string) : string :=
  match s with
  | EmptyString => EmptyString
  | String c rest =>
      if Ascii.eqb c "+" then String " " (form_decode rest)
      else if Ascii.eqb c "%" then
        match rest with
        | String h (String l rest') =>
            String (ascii_of_N (16 * hex_value h + hex_value l)) (form_decode rest')
        | _ => String c (form_decode rest)
        end
      else String c (form_decode rest)
  end.

(** [st'] differs from [st] at most in the status of the row at [rowIndex]:
    the same rows in the same order up to their status, every other row
    untouched, and the filters and the loading flag as they were. *)
Definition same_but_status_at (rowIndex : nat) (st st' : Table.State) : Prop :=
  without_status <$> Table.data st' = without_status <$> Table.data st
  /\ (forall j, j <> rowIndex -> Table.data st' !! j = Table.data st !! j)
  /\ Table.globalFilter st' = Table.globalFilter st
  /\ Table.statusFilter st' = Table.statusFilter st
  /\ Table.isLoading st' = Table.isLoading st.

(** A list fetch that brought no rows: the call was rejected, reported
    failure, or came without data. *)
Definition fetch_failed {P} (settled : Completion (ApiResponse P)) : Prop :=
  match settled with
  | Normal response => success response = false \/ data response = None
  | Throw _ => True
  end.

(** ** Sample inputs *)

Definition sample_base : string := "https://drvyn-backend.vercel.app".

(** A browser session holding the token [t0k3n], stored as well. *)
Definition sample_world : World :=
  mkWorld (Some "t0k3n")
          (Some (mkWindow {[ "authToken" := "t0k3n" ]} "/dashboard")).

(** A backend that answers every request with the status [code] and the body
    [payload], which parses as JSON to [tt]. *)
Definition sample_fetch (code : Z) (payload : string)
  : string -> FetchInit -> Completion (Response.t unit) :=
  fun _ _ => Normal (Response.mk code (Normal payload) (Normal tt)).

(** A network that is down. *)
Definition sample_offline : string -> FetchInit -> Completion (Response.t unit) :=
  fun _ _ => Throw (ErrorInstance "Failed to fetch").

(** The booking of the scenario in the specification. *)
Definition sample_booking : Entity :=
  mkEntity (Some "b1") (Text "555-1") (Some "Toyota") (Some "Corolla") (Some "2021")
           "pending" (Some 1200) "2024-03-01T10:00:00Z".

Definition sample_request : Entity :=
  mkEntity (Some "r1") Undefined (Some "Honda") (Some "Civic") (Some "2019")
           "new" None "2024-03-02T09:30:00Z".

(** A record the backend sent without an identifier. *)
Definition sample_anonymous : Entity :=
  mkEntity None Undefined (Some "Ford") (Some "Focus") (Some "2018")
           "new" None "2024-03-03T08:00:00Z".

Definition sample_bookings_table : Table.State :=
  Table.mkState [sample_booking] "" "all" false.

Definition sample_requests_table : Table.State :=
  Table.mkState [sample_request; sample_anonymous] "" "all" false.

Definition sample_store : CachedTable.Store :=
  CachedTable.mkStore (Some [sample_request; sample_anonymous]) sample_requests_table.

Definition sample_failure : ApiResponse unit := failure "HTTP error! status: 500 - boom".

Definition sample_success : ApiResponse unit := mkApiResponse true (Some tt) None None.

(** A booking whose phone field holds letters. *)
Definition sample_vanity : Entity :=
  mkEntity (Some "b2") (Text "1-800-DRVYN") (Some "Kia") (Some "Rio") (Some "2020")
           "confirmed" (Some 900) "2024-03-04T12:00:00Z".

(** A booking whose creation date does not parse. *)
Definition sample_undated : Entity :=
  mkEntity (Some "b3") Null (Some "Mazda") (Some "3") (Some "2022")
           "pending" (Some 700) "unknown".

(** The timestamps of the sample records, as [Date] parses them; any other
    string is an invalid date. *)
Definition sample_Date_getTime (s : string) : option Z :=
  (list_to_map [ ("2024-03-01T10:00:00Z", 1709287200000);
                 ("2024-03-02T09:30:00Z", 1709371800000);
                 ("2024-03-03T08:00:00Z", 1709452800000);
                 ("2024-03-04T12:00:00Z", 1709553600000) ] : gmap string Z) !! s.

Definition sample_stats : DashboardPage.DashboardStats :=
  DashboardPage.mkStats 2 1 0 2100 2 1 1.

(** The stats call fails with status 500; the three list calls succeed. *)
Definition sample_stats_down : DashboardPage.Responses :=
  DashboardPage.mkResponses
    (failure "HTTP error! status: 500 - boom")
    (mkApiResponse true (Some (bookingsApi.mkPayload (Some [sample_booking; sample_vanity]) 2))
                   None None)
    (mkApiResponse true (Some (insuranceRequestsApi.mkPayload (Some [sample_request]) 1))
                   None None)
    (mkApiResponse true (Some (generalRequestsApi.mkPayload (Some [sample_anonymous]) 1))
                   None None).

(** The bookings call fails; the other three succeed. *)
Definition sample_bookings_down : DashboardPage.Responses :=
  DashboardPage.mkResponses
    (mkApiResponse true (Some sample_stats) None None)
    (failure "Failed to fetch")
    (mkApiResponse true (Some (insuranceRequestsApi.mkPayload (Some [sample_request]) 1))
                   None None)
    (mkApiResponse true (Some (generalRequestsApi.mkPayload (Some [sample_anonymous]) 1))
                   None None).

(** A list answer of the backend holding the two sample bookings. *)
Definition sample_bookings_response : ApiResponse bookingsApi.Payload :=
  mkApiResponse true (Some (bookingsApi.mkPayload (Some [sample_booking; sample_vanity]) 2))
                None None.

Definition sample_requests_response : ApiResponse insuranceRequestsApi.Payload :=
  mkApiResponse true (Some (insuranceRequestsApi.mkPayload (Some [sample_request]) 1))
                None None.

Definition sample_general_response : ApiResponse generalRequestsApi.Payload :=
  mkApiResponse true (Some (generalRequestsApi.mkPayload (Some [sample_anonymous]) 1))
                None None.

(** * The HTTP client *)

Lemma getAuthToken_eq (w : World) :
  getAuthToken w = (Normal (resolved_token w), mkWorld (resolved_token w) (window w)).
Proof.
  destruct w as [tok [win|]]; unfold getAuthToken, resolved_token, bind, when; cbn;
    destruct (truthy tok); reflexivity.
Qed.

Lemma clearAuthToken_eq (w : World) :
  clearAuthToken w =
  (Normal tt,
   mkWorld None (match window w with
                 | Some win => Some (mkWindow (delete "authToken" (localStorage win))
                                              (location_href win))
                 | None => None
                 end)).
Proof. destruct w as [tok [win|]]; reflexivity. Qed.

Lemma getAuthToken_logged_out (w : World) :
  getAuthToken (logged_out w) = (Normal None, logged_out w).
Proof.
  rewrite getAuthToken_eq. destruct w as [tok [win|]]; unfold resolved_token, logged_out; cbn.
  - by rewrite lookup_delete_eq.
  - reflexivity.
Qed.

(** The closed form of [apiRequest]: the result and the world it leaves. *)
Lemma apiRequest_eq {JS : Platform} {T} API_BASE_URL (fetch : string -> FetchInit -> Completion (Response.t T))
    endpoint options (w : World) :
  let w1 := mkWorld (resolved_token w) (window w) in
  apiRequest API_BASE_URL fetch endpoint options w =
  match fetched API_BASE_URL fetch endpoint options w with
  | Throw e => (Normal (failure (error_message e)), w1)
  | Normal response =>
      if Response.status response =? 401 then
        (Normal (failure "Authentication failed"), logged_out w)
      else if negb (Response.ok response) then
        match Response.text response with
        | Normal errorText =>
            (Normal (failure ("HTTP error! status: "
                              +:+ Number_toString (Response.status response)
                              +:+ " - " +:+ errorText)), w1)
        | Throw e => (Normal (failure (error_message e)), w1)
        end
      else
        match Response.json response with
        | Normal j => (Normal (mkApiResponse true (Some j) None None), w1)
        | Throw e => (Normal (failure (error_message e)), w1)
        end
  end.
Proof.
  intros w1. unfold apiRequest, fetched, try_catch, bind at 1.
  rewrite getAuthToken_eq. fold w1.
  unfold bind at 1, await at 1.
  destruct (fetch _ _) as [response|e]; [|reflexivity].
  destruct (Response.status response =? 401) eqn:E401.
  - unfold bind at 1. rewrite clearAuthToken_eq.
    destruct w as [tok [win|]]; reflexivity.
  - destruct (negb (Response.ok response)).
    + unfold bind, await. destruct (Response.text response); reflexivity.
    + unfold bind, await. destruct (Response.json response); reflexivity.
Qed.

Lemma ok_not_401 {T} (response : Response.t T) :
  Response.ok response = true -> (Response.status response =? 401) = false.
Proof. unfold Response.ok. intros H. apply andb_prop in H as [_ H]. lia. Qed.

(** Two observations of one thrown value are merged, then the case is closed. *)
Ltac settle_case :=
  intros; simplify_eq;
  try match goal with
      | Ha : ?x = Throw ?e, Hb : ?x = Throw (ErrorInstance ?m) |- _ =>
          assert (e = ErrorInstance m) by congruence; subst e
      end;
  try reflexivity; try congruence.

(** C3. [apiRequest] never throws: for every endpoint, options, network and
    world it completes normally with a tagged result. When the response is
    ok and its body parses, the result is [{success: true, data: <parsed JSON>}];
    when the status is neither 2xx nor 401 and the body text can be read, it
    is a failure whose message is
    [HTTP error! status: <status> - <body text>]; when [fetch] or the JSON
    parse throws an [Error], it is a failure carrying that error's message. *)
Theorem apiRequest_never_throws {JS : Platform} {T} API_BASE_URL
    (fetch : string -> FetchInit -> Completion (Response.t T)) endpoint options (w : World) :
  exists (r : ApiResponse T) (w' : World),
    apiRequest API_BASE_URL fetch endpoint options w = (Normal r, w')
    /\ (r = mkApiResponse true (data r) None None /\ is_Some (data r)
        \/ r = mkApiResponse false None None (error r) /\ is_Some (error r))
    /\ (forall response j,
          fetched API_BASE_URL fetch endpoint options w = Normal response ->
          Response.ok response = true ->
          Response.json response = Normal j ->
          r = mkApiResponse true (Some j) None None)
    /\ (forall response errorText,
          fetched API_BASE_URL fetch endpoint options w = Normal response ->
          Response.ok response = false ->
          Response.status response <> 401 ->
          Response.text response = Normal errorText ->
          r = failure ("HTTP error! status: " +:+ Number_toString (Response.status response)
                       +:+ " - " +:+ errorText))
    /\ (forall m,
          fetched API_BASE_URL fetch endpoint options w = Throw (ErrorInstance m) ->
          r = failure m)
    /\ (forall response m,
          fetched API_BASE_URL fetch endpoint options w = Normal response ->
          Response.ok response = true ->
          Response.json response = Throw (ErrorInstance m) ->
          r = failure m).
Proof.
  pose proof (apiRequest_eq API_BASE_URL fetch endpoint options w) as Heq. cbv zeta in Heq.
  destruct (fetched API_BASE_URL fetch endpoint options w) as [response|e] eqn:Hf.
  - destruct (Response.status response =? 401) eqn:E401.
    { eexists _, _; split; [exact Heq|].
      split; [right; split; [reflexivity|by eexists]|].
      repeat split; intros; simplify_eq.
      - apply ok_not_401 in H0. congruence.
      - lia.
      - apply ok_not_401 in H0. congruence. }
    destruct (Response.ok response) eqn:Eok; cbn [negb] in Heq.
    + destruct (Response.json response) as [j|e] eqn:Ej;
        (eexists _, _; split; [exact Heq|]).
      * split; [left; split; [reflexivity|by eexists]|].
        repeat split; settle_case.
      * split; [right; split; [reflexivity|by eexists]|].
        repeat split; settle_case.
    + destruct (Response.text response) as [t|e] eqn:Et;
        (eexists _, _; split; [exact Heq|]).
      * split; [right; split; [reflexivity|by eexists]|].
        repeat split; settle_case.
      * split; [right; split; [reflexivity|by eexists]|].
        repeat split; settle_case.
  - eexists _, _; split; [exact Heq|].
    split; [right; split; [reflexivity|by eexists]|].
    repeat split; settle_case.
Qed.

Lemma apiRequest_never_throws_witness :
  fst (apiRequest sample_base (sample_fetch 500 "boom") "/admin/bookings" no_options
                  sample_world)
  = Normal (failure "HTTP error! status: 500 - boom")
  /\ fst (apiRequest sample_base (sample_fetch 200 "{}") "/admin/bookings" no_options
                     sample_world)
     = Normal (mkApiResponse true (Some tt) None None)
  /\ fst (apiRequest sample_base sample_offline "/admin/bookings" no_options sample_world)
     = Normal (failure "Failed to fetch").
Proof.
  split; [|split].
  - destruct (apiRequest_never_throws sample_base (sample_fetch 500 "boom")
                "/admin/bookings" no_options sample_world)
      as (r & w' & -> & _ & _ & H & _).
    cbn [fst]. f_equal.
    apply (H (Response.mk 500 (Normal "boom") (Normal tt)) "boom");
      [reflexivity|reflexivity|cbn; lia|reflexivity].
  - destruct (apiRequest_never_throws sample_base (sample_fetch 200 "{}")
                "/admin/bookings" no_options sample_world)
      as (r & w' & -> & _ & H & _).
    cbn [fst]. f_equal.
    apply (H (Response.mk 200 (Normal "{}") (Normal tt)) tt); reflexivity.
  - destruct (apiRequest_never_throws sample_base sample_offline
                "/admin/bookings" no_options sample_world)
      as (r & w' & -> & _ & _ & _ & H & _).
    cbn [fst]. f_equal. apply (H "Failed to fetch"); reflexivity.
Defined.

(** A thrown value that is no [Error] is reported under a fixed message. *)
Lemma apiRequest_unknown_error {JS : Platform} {T} API_BASE_URL
    (fetch : string -> FetchInit -> Completion (Response.t T)) endpoint options (w : World) :
  fetched API_BASE_URL fetch endpoint options w = Throw OtherThrown ->
  fst (apiRequest API_BASE_URL fetch endpoint options w)
  = Normal (failure "Unknown error occurred").
Proof. intros H. rewrite apiRequest_eq, H. reflexivity. Qed.

(** C4. A request that is answered with status 401 clears the held token,
    the module variable and the stored copy alike, before it returns its
    failure result, so that the next [getAuthToken] returns no token. *)
Theorem apiRequest_401_clears_token {JS : Platform} {T} API_BASE_URL
    (fetch : string -> FetchInit -> Completion (Response.t T)) endpoint options (w : World)
    (response : Response.t T) :
  fetched API_BASE_URL fetch endpoint options w = Normal response ->
  Response.status response = 401 ->
  exists w',
    apiRequest API_BASE_URL fetch endpoint options w
    = (Normal (failure "Authentication failed"), w')
    /\ authToken w' = None
    /\ (forall win, window w' = Some win ->
                    localStorage win !! "authToken" = None /\ location_href win = "/login")
    /\ (is_Some (window w') <-> is_Some (window w))
    /\ getAuthToken w' = (Normal None, w').
Proof.
  intros Hf H401. exists (logged_out w).
  rewrite apiRequest_eq, Hf, H401. cbn [Z.eqb Pos.eqb].
  split; [reflexivity|]. split; [reflexivity|].
  split; [|split; [|apply getAuthToken_logged_out]].
  - intros win. unfold logged_out. cbn. destruct (window w) as [win0|]; [|done].
    intros [= <-]. cbn. by rewrite lookup_delete_eq.
  - unfold logged_out. cbn. destruct (window w); split; intros [x Hx]; by eauto.
Qed.

Lemma apiRequest_401_clears_token_witness :
  exists w',
    apiRequest sample_base (sample_fetch 401 "expired") "/admin/bookings" no_options
               sample_world
    = (Normal (failure "Authentication failed"), w')
    /\ authToken w' = None
    /\ (forall win, window w' = Some win ->
                    localStorage win !! "authToken" = None /\ location_href win = "/login")
    /\ (is_Some (window w') <-> is_Some (window sample_world))
    /\ getAuthToken w' = (Normal None, w').
Proof.
  apply (apiRequest_401_clears_token sample_base (sample_fetch 401 "expired")
           "/admin/bookings" no_options sample_world
           (Response.mk 401 (Normal "expired") (Normal tt)));
    reflexivity.
Defined.

(** * The query strings of the [getAll] builders *)

Lemma append_assoc (s1 s2 s3 : string) : (s1 +:+ s2) +:+ s3 = s1 +:+ (s2 +:+ s3).
Proof.
  induction s1 as [|c s1 IH]; [reflexivity|].
  change (String c ((s1 +:+ s2) +:+ s3) = String c (s1 +:+ (s2 +:+ s3))).
  by rewrite IH.
Qed.

Lemma encode_unreserved (s : string) :
  all_unreserved s = true -> URLSearchParams.encode s = s.
Proof.
  induction s as [|c s IH]; cbn; [reflexivity|].
  intros [Hc Hs]%andb_prop. rewrite (IH Hs). unfold URLSearchParams.encode_byte.
  rewrite Hc. destruct (N_of_ascii c =? 32)%N eqn:E; [|reflexivity].
  apply N.eqb_eq in E. unfold URLSearchParams.unreserved in Hc. rewrite E in Hc. discriminate.
Qed.

Lemma all_unreserved_uint (d : Decimal.uint) :
  all_unreserved (NilEmpty.string_of_uint d) = true.
Proof. induction d; cbn; auto. Qed.

Lemma all_unreserved_decimal_digits (n : Z) : all_unreserved (decimal_digits n) = true.
Proof.
  unfold decimal_digits, NilZero.string_of_int, NilZero.string_of_uint.
  destruct (Z.to_int n) as [d|d]; destruct d; cbn; try reflexivity;
    apply all_unreserved_uint.
Qed.

(** The digits of a safe integer pass through the serializer unchanged. *)
Lemma encode_Number_toString_safe {JS : Platform} (n : Z) :
  safe_integer n = true -> URLSearchParams.encode (Number_toString n) = decimal_digits n.
Proof.
  intros Hn. rewrite (Number_toString_safe n Hn).
  apply encode_unreserved, all_unreserved_decimal_digits.
Qed.

Lemma getAll_query_eq {JS : Platform} (statusFilter : option string) (skip limit : option Z) :
  bookingsApi.getAll_query statusFilter skip limit
  = match statusFilter with
    | Some v => if truthy_string v
                then "status_filter=" +:+ URLSearchParams.encode v +:+ "&"
                else ""
    | None => ""
    end
    +:+ "skip=" +:+ URLSearchParams.encode (Number_toString (default 0 skip))
    +:+ "&limit=" +:+ URLSearchParams.encode (Number_toString (default 50 limit)).
Proof.
  unfold bookingsApi.getAll_query, bookingsApi.getAll_params.
  destruct statusFilter as [v|]; [destruct (truthy_string v)|]; try reflexivity.
  cbn [URLSearchParams.append URLSearchParams.new app].
  set (K := Number_toString (default 0 skip)). set (L := Number_toString (default 50 limit)).
  change (URLSearchParams.toString [("status_filter", v); ("skip", K); ("limit", L)])
    with (("status_filter=" +:+ URLSearchParams.encode v) +:+ "&"
            +:+ "skip=" +:+ URLSearchParams.encode K
            +:+ "&limit=" +:+ URLSearchParams.encode L).
  by rewrite !append_assoc.
Qed.

(** C7. The query string of [bookingsApi.getAll] and
    [insuranceRequestsApi.getAll] is [status_filter=S] (left out when the
    filter is absent or empty), then [skip=K], then [limit=L], joined by [&],
    with [K = 0] and [L = 50] for omitted arguments, [K] and [L] being
    written as [toString] prints them and every value passing through the
    serializer of [URLSearchParams]; [generalRequestsApi.getAll] builds the
    last two. For safe integers [K] and [L] are their decimal digits. The
    status values of the data model are serialized unchanged, and
    [getAll("confirmed", 0, 50)] builds
    [status_filter=confirmed&skip=0&limit=50]. *)
Theorem getAll_query_string {JS : Platform} (statusFilter : option string) (skip limit : option Z) :
  let K := default 0 skip in
  let L := default 50 limit in
  let filter_part :=
    match statusFilter with
    | Some v => if truthy_string v then "status_filter=" +:+ URLSearchParams.encode v +:+ "&"
                else ""
    | None => ""
    end in
  let printed :=
    "skip=" +:+ URLSearchParams.encode (Number_toString K)
    +:+ "&limit=" +:+ URLSearchParams.encode (Number_toString L) in
  (bookingsApi.getAll_query statusFilter skip limit = filter_part +:+ printed
   /\ insuranceRequestsApi.getAll_query statusFilter skip limit = filter_part +:+ printed
   /\ generalRequestsApi.getAll_query skip limit = printed)
  /\ (safe_integer K = true -> safe_integer L = true ->
      printed = "skip=" +:+ decimal_digits K +:+ "&limit=" +:+ decimal_digits L)
  /\ Forall (fun v => URLSearchParams.encode v = v) known_statuses
  /\ bookingsApi.getAll_query (Some "confirmed") (Some 0) (Some 50)
     = "status_filter=confirmed&skip=0&limit=50".
Proof.
  intros K L filter_part printed.
  split; [split; [|split]|split; [|split]].
  - apply getAll_query_eq.
  - unfold insuranceRequestsApi.getAll_query, insuranceRequestsApi.getAll_params,
      filter_part, printed, K, L.
    destruct statusFilter as [v|]; [destruct (truthy_string v)|]; try reflexivity.
    cbn [URLSearchParams.append URLSearchParams.new app].
    set (k := Number_toString (default 0 skip)). set (l := Number_toString (default 50 limit)).
    change (URLSearchParams.toString [("status_filter", v); ("skip", k); ("limit", l)])
      with (("status_filter=" +:+ URLSearchParams.encode v) +:+ "&"
              +:+ "skip=" +:+ URLSearchParams.encode k
              +:+ "&limit=" +:+ URLSearchParams.encode l).
    by rewrite !append_assoc.
  - reflexivity.
  - intros HK HL. unfold printed.
    by rewrite (encode_Number_toString_safe K HK), (encode_Number_toString_safe L HL).
  - unfold known_statuses. repeat constructor.
  - rewrite getAll_query_eq. cbn [default truthy_string].
    rewrite !encode_Number_toString_safe by reflexivity. reflexivity.
Qed.

Lemma getAll_query_string_witness :
  bookingsApi.getAll_query (Some "pending") (Some 100) None
  = "status_filter=pending&skip=100&limit=50"
  /\ generalRequestsApi.getAll_query None (Some 9007199254740991)
     = "skip=0&limit=9007199254740991".
Proof.
  split.
  - destruct (getAll_query_string (Some "pending") (Some 100) None)
      as ((Hbookings & _) & Hdigits & _).
    rewrite Hbookings, Hdigits; reflexivity.
  - destruct (getAll_query_string None None (Some 9007199254740991))
      as ((_ & _ & Hgeneral) & Hdigits & _).
    rewrite Hgeneral, Hdigits; reflexivity.
Defined.

(** * Status edits in the table components *)

Lemma with_status_same (row : Entity) : with_status (status row) row = row.
Proof. by destruct row. Qed.

Lemma status_with_status (value : string) (row : Entity) :
  status (with_status value row) = value.
Proof. reflexivity. Qed.

Lemma map_status_lookup (rowIndex : nat) (value : string) (old : list Entity) (j : nat) :
  map_status rowIndex value old !! j
  = (fun row => if bool_decide (j = rowIndex) then with_status value row else row)
      <$> old !! j.
Proof. unfold map_status. by rewrite list_lookup_imap. Qed.

Lemma map_status_lookup_eq (rowIndex : nat) (value : string) (old : list Entity) (row : Entity) :
  old !! rowIndex = Some row ->
  map_status rowIndex value old !! rowIndex = Some (with_status value row).
Proof. intros H. rewrite map_status_lookup, H. cbn. by rewrite bool_decide_eq_true_2. Qed.

Lemma map_status_lookup_ne (rowIndex : nat) (value : string) (old : list Entity) (j : nat) :
  j <> rowIndex -> map_status rowIndex value old !! j = old !! j.
Proof.
  intros H. rewrite map_status_lookup. rewrite bool_decide_eq_false_2 by done.
  by destruct (old !! j).
Qed.

Lemma map_status_length (rowIndex : nat) (value : string) (old : list Entity) :
  length (map_status rowIndex value old) = length old.
Proof. unfold map_status. by rewrite length_imap. Qed.

(** Writing back the status a row had undoes an edit of that row. *)
Lemma map_status_revert (rowIndex : nat) (value : string) (old : list Entity) (row : Entity) :
  old !! rowIndex = Some row ->
  map_status rowIndex (status row) (map_status rowIndex value old) = old.
Proof.
  intros H. apply list_eq. intros j. rewrite map_status_lookup.
  destruct (decide (j = rowIndex)) as [->|Hne].
  - rewrite (map_status_lookup_eq _ _ _ _ H), H. cbn.
    rewrite bool_decide_eq_true_2 by done. f_equal. by destruct row.
  - rewrite map_status_lookup_ne by done. rewrite bool_decide_eq_false_2 by done.
    by destruct (old !! j).
Qed.

(** C1. Optimistic status update round-trip, in each of the three table
    components: for a row at [rowIndex] that has an identifier and the status
    [S0], [updateData(rowIndex, "status", S1)] at once replaces the status of
    that row by [S1], leaves the other rows alone and issues the backend
    update; a success answer changes nothing more, so the status stays [S1];
    a failure answer writes the captured [S0] back, which restores the rows
    held before the edit. *)
Theorem optimistic_update_round_trip (rowIndex : nat) (row : Entity) (id S0 S1 : string)
    (st : Table.State) (cache : option (list Entity)) :
  Table.data st !! rowIndex = Some row ->
  _id row = Some id ->
  truthy_string id = true ->
  status row = S0 ->
  let s := CachedTable.mkStore cache st in
  (exists st1,
      BookingsDataTable.updateData_start rowIndex "status" S1 st
      = Table.Awaiting row (Table.mkUpdateCall id S1) st1
      /\ status <$> Table.data st1 !! rowIndex = Some S1
      /\ (forall j, j <> rowIndex -> Table.data st1 !! j = Table.data st !! j)
      /\ (forall T (response : ApiResponse T), success response = true ->
            BookingsDataTable.updateData_resume rowIndex row (Normal response) st1 = st1)
      /\ (forall T (response : ApiResponse T), success response = false ->
            let st2 := BookingsDataTable.updateData_resume rowIndex row (Normal response) st1 in
            status <$> Table.data st2 !! rowIndex = Some S0 /\ st2 = st))
  /\ (exists s1,
         InsuranceDataTable.updateData_start rowIndex "status" S1 s
         = Table.Awaiting row (Table.mkUpdateCall id S1) s1
         /\ status <$> CachedTable.data s1 !! rowIndex = Some S1
         /\ (forall j, j <> rowIndex -> CachedTable.data s1 !! j = CachedTable.data s !! j)
         /\ (forall T (response : ApiResponse T), success response = true ->
               InsuranceDataTable.updateData_resume rowIndex row (Normal response) s1 = s1)
         /\ (forall T (response : ApiResponse T), success response = false ->
               let s2 := InsuranceDataTable.updateData_resume rowIndex row (Normal response) s1 in
               status <$> CachedTable.data s2 !! rowIndex = Some S0
               /\ CachedTable.component s2 = st))
  /\ (exists s1,
         RequestsDataTable.updateData_start rowIndex "status" S1 s
         = Table.Awaiting row (Table.mkUpdateCall id S1) s1
         /\ status <$> CachedTable.data s1 !! rowIndex = Some S1
         /\ (forall j, j <> rowIndex -> CachedTable.data s1 !! j = CachedTable.data s !! j)
         /\ (forall T (response : ApiResponse T), success response = true ->
               RequestsDataTable.updateData_resume rowIndex row (Normal response) s1 = s1)
         /\ (forall T (response : ApiResponse T), success response = false ->
               let s2 := RequestsDataTable.updateData_resume rowIndex row (Normal response) s1 in
               status <$> CachedTable.data s2 !! rowIndex = Some S0
               /\ CachedTable.component s2 = st)).
Proof.
  intros Hrow Hid Htruthy HS0 s. destruct st as [rows gf sf ld]. cbn in Hrow.
  split; [|split].
  - eexists. unfold BookingsDataTable.updateData_start. cbn -[map_status]. rewrite Hrow, Hid, Htruthy.
    split; [reflexivity|]. cbn -[map_status].
    split; [by rewrite (map_status_lookup_eq _ _ _ _ Hrow)|].
    split; [intros j Hj; by apply map_status_lookup_ne|].
    split; intros T response Hs; unfold BookingsDataTable.updateData_resume; rewrite Hs; cbn -[map_status];
      [reflexivity|].
    unfold Table.setData, CachedTable.setData, CachedTable.data; cbn -[map_status].
    rewrite (map_status_revert _ _ _ _ Hrow), Hrow. cbn. by rewrite HS0.
  - eexists. unfold InsuranceDataTable.updateData_start, s, CachedTable.data. cbn -[map_status].
    rewrite Hrow, Hid, Htruthy.
    split; [reflexivity|]. cbn -[map_status].
    split; [by rewrite (map_status_lookup_eq _ _ _ _ Hrow)|].
    split; [intros j Hj; by apply map_status_lookup_ne|].
    split; intros T response Hs; unfold InsuranceDataTable.updateData_resume; rewrite Hs; cbn -[map_status];
      [reflexivity|].
    unfold Table.setData, CachedTable.setData, CachedTable.data; cbn -[map_status].
    rewrite (map_status_revert _ _ _ _ Hrow), Hrow. cbn. by rewrite HS0.
  - eexists. unfold RequestsDataTable.updateData_start, s, CachedTable.data. cbn -[map_status].
    rewrite Hrow, Hid, Htruthy.
    split; [reflexivity|]. cbn -[map_status].
    split; [by rewrite (map_status_lookup_eq _ _ _ _ Hrow)|].
    split; [intros j Hj; by apply map_status_lookup_ne|].
    split; intros T response Hs; unfold RequestsDataTable.updateData_resume; rewrite Hs; cbn -[map_status];
      [reflexivity|].
    unfold Table.setData, CachedTable.setData, CachedTable.data; cbn -[map_status].
    rewrite (map_status_revert _ _ _ _ Hrow), Hrow. cbn. by rewrite HS0.
Qed.

Lemma optimistic_update_round_trip_witness :
  Table.data sample_bookings_table !! 0%nat = Some sample_booking
  /\ (let st1 := Table.state_of (BookingsDataTable.updateData_start
                                   0 "status" "confirmed" sample_bookings_table) in
      status <$> Table.data st1 !! 0%nat = Some "confirmed"
      /\ BookingsDataTable.updateData_resume 0 sample_booking (Normal sample_success) st1 = st1
      /\ BookingsDataTable.updateData_resume 0 sample_booking (Normal sample_failure) st1
         = sample_bookings_table).
Proof.
  split; [reflexivity|].
  destruct (optimistic_update_round_trip 0 sample_booking "b1" "pending" "confirmed"
              sample_bookings_table None eq_refl eq_refl eq_refl eq_refl)
    as [(st1 & Hstart & Hopt & _ & Hok & Hfail) _].
  cbv zeta. rewrite Hstart. cbn [Table.state_of].
  split; [exact Hopt|]. split.
  - apply Hok. reflexivity.
  - apply (Hfail unit sample_failure). reflexivity.
Defined.

(** What a failed update leaves in the module variable of the caching
    variants: the rows of the optimistic phase. *)
Lemma failed_update_cache (rowIndex : nat) (row : Entity) (id S1 : string)
    (s : CachedTable.Store) {T} (response : ApiResponse T) :
  CachedTable.data s !! rowIndex = Some row ->
  _id row = Some id ->
  truthy_string id = true ->
  success response = false ->
  CachedTable.globalCachedData
    (InsuranceDataTable.updateData rowIndex "status" S1 (Normal response) s)
  = Some (map_status rowIndex S1 (CachedTable.data s))
  /\ CachedTable.globalCachedData
       (RequestsDataTable.updateData rowIndex "status" S1 (Normal response) s)
     = Some (map_status rowIndex S1 (CachedTable.data s)).
Proof.
  intros Hrow Hid Htruthy Hs.
  unfold InsuranceDataTable.updateData, InsuranceDataTable.updateData_start,
    RequestsDataTable.updateData, RequestsDataTable.updateData_start,
    InsuranceDataTable.updateData_resume, RequestsDataTable.updateData_resume.
  cbn -[map_status]. rewrite Hrow, Hid, Htruthy, Hs. split; reflexivity.
Qed.

(** C2, evaluated on the code. A request row [r1] with status [new] is set
    to [contacted] and the backend answers with a failure: the component
    holds the rows from before the edit again, while [globalCachedData]
    still holds the row with status [contacted]. *)
Theorem rollback_leaves_cache_optimistic :
  let edited := [with_status "contacted" sample_request; sample_anonymous] in
  let s2 := InsuranceDataTable.updateData 0 "status" "contacted" (Normal sample_failure) sample_store in
  let s2' := RequestsDataTable.updateData 0 "status" "contacted" (Normal sample_failure) sample_store in
  CachedTable.data s2 = CachedTable.data sample_store
  /\ CachedTable.globalCachedData s2 = Some edited
  /\ CachedTable.globalCachedData s2 <> CachedTable.globalCachedData sample_store
  /\ CachedTable.data s2' = CachedTable.data sample_store
  /\ CachedTable.globalCachedData s2' = Some edited
  /\ CachedTable.globalCachedData s2' <> CachedTable.globalCachedData sample_store.
Proof. cbv zeta. repeat split; try reflexivity; discriminate. Qed.

(** C10. When the edited column is not [status], or the targeted row has no
    identifier (absent or empty), [updateData] returns at once in each of
    the three components: the rows and the cache are what they were, and no
    backend update is issued, whatever the backend would have answered. *)
Theorem updateData_guard (rowIndex : nat) (columnId value : string)
    (st : Table.State) (cache : option (list Entity)) {T}
    (settled : Completion (ApiResponse T)) :
  columnId <> "status"
  \/ (exists row, Table.data st !! rowIndex = Some row /\ truthy (_id row) = false) ->
  let s := CachedTable.mkStore cache st in
  (BookingsDataTable.updateData_start rowIndex columnId value st = Table.Returned st
   /\ Table.calls_of (BookingsDataTable.updateData_start rowIndex columnId value st) = []
   /\ BookingsDataTable.updateData rowIndex columnId value settled st = st)
  /\ (InsuranceDataTable.updateData_start rowIndex columnId value s = Table.Returned s
      /\ Table.calls_of (InsuranceDataTable.updateData_start rowIndex columnId value s) = []
      /\ InsuranceDataTable.updateData rowIndex columnId value settled s = s)
  /\ (RequestsDataTable.updateData_start rowIndex columnId value s = Table.Returned s
      /\ Table.calls_of (RequestsDataTable.updateData_start rowIndex columnId value s) = []
      /\ RequestsDataTable.updateData rowIndex columnId value settled s = s).
Proof.
  intros Hguard s.
  assert (Hb : BookingsDataTable.updateData_start rowIndex columnId value st
               = Table.Returned st).
  { unfold BookingsDataTable.updateData_start.
    destruct (String.eqb columnId "status") eqn:Ecol; [|reflexivity].
    apply String.eqb_eq in Ecol. destruct Hguard as [Hne|(row & -> & Hid)]; [done|].
    unfold truthy in Hid. destruct (_id row); [by rewrite Hid|reflexivity]. }
  assert (Hi : InsuranceDataTable.updateData_start rowIndex columnId value s
               = Table.Returned s).
  { unfold InsuranceDataTable.updateData_start, CachedTable.data. cbn [CachedTable.component s].
    destruct (String.eqb columnId "status") eqn:Ecol; [|reflexivity].
    apply String.eqb_eq in Ecol. destruct Hguard as [Hne|(row & -> & Hid)]; [done|].
    unfold truthy in Hid. destruct (_id row); [by rewrite Hid|reflexivity]. }
  assert (Hr : RequestsDataTable.updateData_start rowIndex columnId value s
               = Table.Returned s).
  { unfold RequestsDataTable.updateData_start, CachedTable.data. cbn [CachedTable.component s].
    destruct (String.eqb columnId "status") eqn:Ecol; [|reflexivity].
    apply String.eqb_eq in Ecol. destruct Hguard as [Hne|(row & -> & Hid)]; [done|].
    unfold truthy in Hid. destruct (_id row); [by rewrite Hid|reflexivity]. }
  unfold BookingsDataTable.updateData, InsuranceDataTable.updateData,
    RequestsDataTable.updateData.
  rewrite Hb, Hi, Hr. repeat split.
Qed.

Lemma updateData_guard_witness :
  (BookingsDataTable.updateData 0 "brand" "Honda" (Normal sample_failure) sample_bookings_table
   = sample_bookings_table
   /\ Table.calls_of (BookingsDataTable.updateData_start 0 "brand" "Honda" sample_bookings_table)
      = [])
  /\ (RequestsDataTable.updateData 1 "status" "resolved" (Normal sample_success) sample_store
      = sample_store
      /\ Table.calls_of (RequestsDataTable.updateData_start 1 "status" "resolved" sample_store)
         = []).
Proof.
  split.
  - destruct (updateData_guard 0 "brand" "Honda" sample_bookings_table None (Normal sample_failure))
      as [(_ & Hcalls & Hsame) _]; [left; discriminate|].
    split; [exact Hsame|exact Hcalls].
  - destruct (updateData_guard 1 "status" "resolved" sample_requests_table
                (Some [sample_request; sample_anonymous]) (Normal sample_success))
      as (_ & _ & _ & Hcalls & Hsame);
      [right; exists sample_anonymous; split; reflexivity|].
    split; [exact Hsame|exact Hcalls].
Defined.

(** A rejected backend call is handled as a failure result is. *)
Lemma updateData_resume_rejected {T} (rowIndex : nat) (row : Entity) (e : Thrown)
    (st : Table.State) (s : CachedTable.Store) :
  BookingsDataTable.updateData_resume rowIndex row (@Throw (ApiResponse T) e) st
  = BookingsDataTable.updateData_resume rowIndex row (Normal (@failure T "rejected")) st
  /\ InsuranceDataTable.updateData_resume rowIndex row (@Throw (ApiResponse T) e) s
     = InsuranceDataTable.updateData_resume rowIndex row (Normal (@failure T "rejected")) s
  /\ RequestsDataTable.updateData_resume rowIndex row (@Throw (ApiResponse T) e) s
     = RequestsDataTable.updateData_resume rowIndex row (Normal (@failure T "rejected")) s.
Proof. repeat split. Qed.

(** The rows never change and no call is issued unless [updateData] reaches
    its [await], also when the row index is out of range. *)
Lemma updateData_start_frame (rowIndex : nat) (columnId value : string) (st : Table.State) :
  match BookingsDataTable.updateData_start rowIndex columnId value st with
  | Table.Awaiting row call _ =>
      columnId = "status" /\ Table.data st !! rowIndex = Some row
      /\ _id row = Some (Table.call_id call) /\ Table.call_status call = value
  | Table.Returned st' => st' = st
  | Table.Rejected _ st' => st' = st /\ Table.data st !! rowIndex = None
  end.
Proof.
  unfold BookingsDataTable.updateData_start.
  destruct (String.eqb columnId "status") eqn:Ecol; [|reflexivity].
  apply String.eqb_eq in Ecol.
  destruct (Table.data st !! rowIndex) as [row|]; [|done].
  destruct (_id row) as [id|] eqn:Eid; [|reflexivity].
  destruct (truthy_string id); [|reflexivity]. cbn. auto.
Qed.

(** * Client-side filtering *)

Lemma append_cons (c : ascii) (s1 s2 : string) : String c s1 +:+ s2 = String c (s1 +:+ s2).
Proof. reflexivity. Qed.

Lemma prefix_spec (sub s : string) :
  String.prefix sub s = true <-> exists post, s = sub +:+ post.
Proof.
  revert s. induction sub as [|a sub IH]; intros s.
  - split; [intros _; by exists s|]. intros _. by destruct s.
  - destruct s as [|b s]; cbn [String.prefix].
    + split; [discriminate|]. intros [post H]. rewrite append_cons in H. discriminate.
    + destruct (ascii_dec a b) as [->|Hne].
      * rewrite IH. split; intros [post H]; exists post.
        -- rewrite append_cons. by rewrite <- H.
        -- rewrite append_cons in H. by injection H.
      * split; [discriminate|]. intros [post H]. rewrite append_cons in H.
        injection H as Hb _. congruence.
Qed.

(** [includes] decides the occurrence of a substring. *)
Lemma includes_spec (s sub : string) : includes s sub = true <-> occurs sub s.
Proof.
  induction s as [|c s IH]; cbn [includes]; rewrite orb_true_iff, prefix_spec.
  - split.
    + intros [[post H]|H]; [|discriminate]. by exists EmptyString, post.
    + intros ([|c pre] & post & H); [left; by exists post|].
      rewrite append_cons in H. discriminate.
  - rewrite IH. split.
    + intros [[post H]|(pre & post & H)].
      * by exists EmptyString, post.
      * exists (String c pre), post. rewrite append_cons. by rewrite <- H.
    + intros ([|c' pre] & post & H); [left; by exists post|].
      right. rewrite append_cons in H. injection H as _ H. by exists pre, post.
Qed.

Lemma lower_includes_spec {JS : Platform} (field : option string) (filter : string) :
  lower_includes field filter = true <-> field_has occurs_lowered filter field.
Proof.
  unfold lower_includes, field_has, occurs_lowered. destruct field as [f|].
  - rewrite includes_spec. split; [intros H; by exists f|]. by intros (f' & [= <-] & H).
  - split; [discriminate|]. by intros (f' & [=] & _).
Qed.

Lemma plain_includes_spec (field : option string) (filter : string) :
  plain_includes field filter = true <-> field_has occurs filter field.
Proof.
  unfold plain_includes, field_has. destruct field as [f|].
  - rewrite includes_spec. split; [intros H; by exists f|]. by intros (f' & [= <-] & H).
  - split; [discriminate|]. by intros (f' & [=] & _).
Qed.

Lemma truthy_string_false (s : string) : truthy_string s = false <-> s = "".
Proof.
  unfold truthy_string. rewrite negb_false_iff. apply String.eqb_eq.
Qed.

Lemma truthy_string_true (s : string) : truthy_string s = true <-> s <> "".
Proof.
  unfold truthy_string. rewrite negb_true_iff. apply String.eqb_neq.
Qed.

Lemma filter_comm {A} (f g : A -> bool) (l : list A) :
  List.filter f (List.filter g l) = List.filter g (List.filter f l).
Proof.
  induction l as [|x l IH]; [reflexivity|]. cbn.
  destruct (g x) eqn:Eg, (f x) eqn:Ef; cbn; rewrite ?Eg, ?Ef, IH; reflexivity.
Qed.

Lemma requests_filteredData_eq {JS : Platform} (st : Table.State) :
  RequestsDataTable.filteredData st = InsuranceDataTable.filteredData st.
Proof. reflexivity. Qed.

(** ** Lower-casing of ASCII text and the letters it identifies *)

Lemma ascii_toLowerCase_app (s1 s2 : string) :
  ascii_toLowerCase (s1 +:+ s2) = ascii_toLowerCase s1 +:+ ascii_toLowerCase s2.
Proof.
  induction s1 as [|c s1 IH]; [reflexivity|].
  rewrite append_cons. cbn [ascii_toLowerCase]. by rewrite IH, append_cons.
Qed.

Lemma ascii_toLowerCase_split (s a b : string) :
  ascii_toLowerCase s = a +:+ b ->
  exists s1 s2, s = s1 +:+ s2 /\ ascii_toLowerCase s1 = a /\ ascii_toLowerCase s2 = b.
Proof.
  revert s. induction a as [|c a IH]; intros s H.
  - by exists EmptyString, s.
  - destruct s as [|d s]; [discriminate|]. rewrite append_cons in H. cbn in H.
    injection H as Hc H. destruct (IH s H) as (s1 & s2 & -> & <- & <-).
    exists (String d s1), s2. cbn. by rewrite Hc.
Qed.

Lemma N_of_lower_byte (c : ascii) :
  N_of_ascii (lower_byte c) = (if capital c then N_of_ascii c + 32 else N_of_ascii c)%N.
Proof.
  unfold lower_byte, capital.
  destruct ((65 <=? N_of_ascii c) && (N_of_ascii c <=? 90))%N eqn:E; [|reflexivity].
  apply N_ascii_embedding. apply andb_prop in E as [_ E]. apply N.leb_le in E. lia.
Qed.

Lemma N_of_ascii_inj (a b : ascii) : N_of_ascii a = N_of_ascii b -> a = b.
Proof. intros H. rewrite <- (ascii_N_embedding a), <- (ascii_N_embedding b). by rewrite H. Qed.

(** Lower-casing identifies two bytes exactly when they are the same letter. *)
Lemma lower_byte_same_letter (a b : ascii) :
  lower_byte a = lower_byte b <-> same_letter a b = true.
Proof.
  unfold same_letter. rewrite !orb_true_iff, !andb_true_iff, Ascii.eqb_eq, !N.eqb_eq.
  split.
  - intros H. apply (f_equal N_of_ascii) in H. rewrite !N_of_lower_byte in H.
    unfold capital in *.
    destruct ((65 <=? N_of_ascii a) && (N_of_ascii a <=? 90))%N eqn:Ea,
             ((65 <=? N_of_ascii b) && (N_of_ascii b <=? 90))%N eqn:Eb.
    + left; left. apply N_of_ascii_inj. lia.
    + left; right. split; [reflexivity|]. lia.
    + right. split; [reflexivity|]. lia.
    + left; left. by apply N_of_ascii_inj.
  - intros H. apply N_of_ascii_inj. rewrite !N_of_lower_byte.
    destruct H as [[->|[Ha Hb]]|[Hb Ha]]; [reflexivity| |].
    + rewrite Ha. unfold capital in *.
      apply andb_prop in Ha as [Ha1 Ha2]. apply N.leb_le in Ha1, Ha2.
      destruct ((65 <=? N_of_ascii b) && (N_of_ascii b <=? 90))%N eqn:Eb; [|lia].
      apply andb_prop in Eb as [_ Eb]. apply N.leb_le in Eb. lia.
    + rewrite Hb. unfold capital in *.
      apply andb_prop in Hb as [Hb1 Hb2]. apply N.leb_le in Hb1, Hb2.
      destruct ((65 <=? N_of_ascii a) && (N_of_ascii a <=? 90))%N eqn:Ea; [|lia].
      apply andb_prop in Ea as [_ Ea]. apply N.leb_le in Ea. lia.
Qed.

Lemma equal_ignoring_case_spec (s1 s2 : string) :
  equal_ignoring_case s1 s2 = true <-> ascii_toLowerCase s1 = ascii_toLowerCase s2.
Proof.
  revert s2. induction s1 as [|a s1 IH]; intros [|b s2]; cbn;
    try (split; discriminate); [done|].
  rewrite andb_true_iff, IH, <- lower_byte_same_letter. split.
  - by intros [-> ->].
  - intros [= Hc Hs]. by split.
Qed.

(** On ASCII lower-cased text, occurrence is occurrence with the case of the
    letters ignored. *)
Lemma occurs_ascii_toLowerCase (sub s : string) :
  occurs (ascii_toLowerCase sub) (ascii_toLowerCase s) <-> occurs_ignoring_case sub s.
Proof.
  split.
  - intros (pre' & post' & H).
    apply ascii_toLowerCase_split in H as (pre & rest & -> & _ & H).
    apply ascii_toLowerCase_split in H as (part & post & -> & Hpart & _).
    exists pre, part, post. split; [reflexivity|]. by apply equal_ignoring_case_spec.
  - intros (pre & part & post & -> & Hpart). apply equal_ignoring_case_spec in Hpart.
    exists (ascii_toLowerCase pre), (ascii_toLowerCase post).
    by rewrite !ascii_toLowerCase_app, Hpart.
Qed.

Lemma occurs_lowered_ascii {JS : Platform} (sub s : string) :
  is_ascii sub = true -> is_ascii s = true ->
  occurs_lowered sub s <-> occurs_ignoring_case sub s.
Proof.
  intros Hsub Hs. unfold occurs_lowered.
  rewrite (toLowerCase_ascii sub Hsub), (toLowerCase_ascii s Hs).
  apply occurs_ascii_toLowerCase.
Qed.

Lemma insurance_filteredData_In {JS : Platform} (st : Table.State) (row : Entity) :
  In row (InsuranceDataTable.filteredData st) <->
  In row (Table.data st)
  /\ (Table.statusFilter st = "all" \/ status row = Table.statusFilter st)
  /\ (Table.globalFilter st = ""
      \/ Exists (fun field => field_has occurs_lowered (Table.globalFilter st) (field row))
                [brand; model; year]).
Proof.
  unfold InsuranceDataTable.filteredData.
  assert (Hstatus :
            In row (if negb (String.eqb (Table.statusFilter st) "all")
                    then List.filter (fun item => String.eqb (status item) (Table.statusFilter st))
                                     (Table.data st)
                    else Table.data st)
            <-> In row (Table.data st)
                /\ (Table.statusFilter st = "all" \/ status row = Table.statusFilter st)).
  { destruct (String.eqb (Table.statusFilter st) "all") eqn:E; cbn [negb].
    - apply String.eqb_eq in E. tauto.
    - apply String.eqb_neq in E. rewrite filter_In, String.eqb_eq. tauto. }
  destruct (truthy_string (Table.globalFilter st)) eqn:Et.
  - apply truthy_string_true in Et.
    rewrite filter_In, Hstatus, !orb_true_iff, !lower_includes_spec, !Exists_cons, Exists_nil.
    tauto.
  - apply truthy_string_false in Et. rewrite Hstatus. tauto.
Qed.

(** C5, as amended. The free-text filter lower-cases the text typed and the
    fields brand, model and year of a row as the engine does, and keeps the
    row when the lower-cased text occurs in one of the three lower-cased
    fields; for ASCII text and an ASCII field that is occurrence with the
    case of the letters ignored. The insurance-requests and general-requests
    tables show exactly the held rows that pass the status filter and that
    the text filter keeps. The bookings table shows exactly the held rows
    that the text filter keeps or whose phone contains the text exactly as
    typed. The empty text keeps every row. *)
Theorem text_filter_spec {JS : Platform} (st : Table.State) :
  let text := Table.globalFilter st in
  let passes_status := fun row =>
    Table.statusFilter st = "all" \/ status row = Table.statusFilter st in
  let text_in := fun (row : Entity) (field : Entity -> option string) =>
    exists f, field row = Some f /\ occurs (toLowerCase text) (toLowerCase f) in
  let phone_has := fun (row : Entity) =>
    exists number, phone row = Text number /\ occurs text number in
  (forall row,
      In row (InsuranceDataTable.filteredData st) <->
      In row (Table.data st) /\ passes_status row
      /\ (text = "" \/ Exists (text_in row) [brand; model; year]))
  /\ RequestsDataTable.filteredData st = InsuranceDataTable.filteredData st
  /\ (forall row,
        In row (BookingsDataTable.filteredData st) <->
        In row (Table.data st)
        /\ (text = "" \/ Exists (text_in row) [brand; model; year] \/ phone_has row))
  /\ (text = "" ->
      BookingsDataTable.filteredData st = Table.data st
      /\ (Table.statusFilter st = "all" -> InsuranceDataTable.filteredData st = Table.data st))
  /\ (forall f,
        is_ascii text = true -> is_ascii f = true ->
        occurs (toLowerCase text) (toLowerCase f) <-> occurs_ignoring_case text f).
Proof.
  intros text passes_status text_in phone_has.
  split; [intros row; apply insurance_filteredData_In|].
  split; [reflexivity|].
  split; [|split].
  - intros row. unfold BookingsDataTable.filteredData. fold text.
    destruct (truthy_string text) eqn:Et.
    + apply truthy_string_true in Et.
      rewrite filter_In, !orb_true_iff, !lower_includes_spec, plain_includes_spec,
        !Exists_cons, Exists_nil.
      assert (Hphone : field_has occurs text (member_text (phone row)) <-> phone_has row).
      { unfold field_has, phone_has. split.
        - intros (f & Hf & Hocc). destruct (phone row) as [| |number]; try discriminate.
          injection Hf as ->. by exists f.
        - intros (number & -> & Hocc). by exists number. }
      rewrite Hphone. unfold field_has, occurs_lowered, text_in. tauto.
    + apply truthy_string_false in Et. tauto.
  - intros Htext. unfold text in Htext. split.
    + unfold BookingsDataTable.filteredData. by rewrite Htext.
    + intros Hall. unfold InsuranceDataTable.filteredData. by rewrite Htext, Hall.
  - intros f. apply occurs_lowered_ascii.
Qed.

Lemma text_filter_spec_witness :
  In sample_vanity
     (BookingsDataTable.filteredData (Table.mkState [sample_booking; sample_vanity] "RIO" "all" false))
  /\ BookingsDataTable.filteredData (Table.mkState [sample_booking; sample_vanity] "" "all" false)
     = [sample_booking; sample_vanity]
  /\ occurs_ignoring_case "RIO" "Rio"
  /\ ~ In sample_vanity
        (InsuranceDataTable.filteredData
           (Table.mkState [sample_booking; sample_vanity] "rio" "pending" false)).
Proof.
  pose proof (text_filter_spec (Table.mkState [sample_booking; sample_vanity] "RIO" "all" false))
    as (_ & _ & Hkeep & _ & Hcase).
  pose proof (text_filter_spec (Table.mkState [sample_booking; sample_vanity] "" "all" false))
    as (_ & _ & _ & Hempty & _).
  pose proof (text_filter_spec (Table.mkState [sample_booking; sample_vanity] "rio" "pending" false))
    as (Hstatus & _).
  assert (Hocc : occurs (toLowerCase "RIO") (toLowerCase "Rio"))
    by (by exists EmptyString, EmptyString).
  split; [|split; [|split]].
  - apply Hkeep. split; [right; left; reflexivity|].
    right; left. apply Exists_cons_tl, Exists_cons_hd.
    exists "Rio". split; [reflexivity|exact Hocc].
  - destruct (Hempty eq_refl) as [Hall _]. exact Hall.
  - apply (Hcase "Rio"); [reflexivity|reflexivity|exact Hocc].
  - intros Hin. apply Hstatus in Hin as (_ & [Hall|Hsame] & _); discriminate.
Defined.

(** C5 as stated fails on the bookings table: the filter [drvyn] occurs,
    case ignored, in the phone [1-800-DRVYN] of the only row, and the row is
    not kept. *)
Lemma text_filter_phone_counterexample :
  ~ text_filter_as_specified [brand; model; year; fun row => member_text (phone row)]
      BookingsDataTable.filteredData
      (Table.mkState [sample_vanity] "drvyn" "all" false).
Proof.
  intros H. destruct (H eq_refl) as [_ Hrows].
  assert (Hin : In sample_vanity
                   (BookingsDataTable.filteredData
                      (Table.mkState [sample_vanity] "drvyn" "all" false))).
  { apply Hrows; [discriminate|]. split; [left; reflexivity|].
    do 3 apply Exists_cons_tl. apply Exists_cons_hd.
    exists "1-800-DRVYN". split; [reflexivity|]. by exists "1-800-", "DRVYN", EmptyString. }
  vm_compute in Hin. exact Hin.
Qed.

(** C6, as amended. The insurance-requests and general-requests tables
    filter the held rows by status: [all] keeps what the text filter keeps,
    any other value keeps of those exactly the rows with that status. The
    bookings table does not filter the held rows by status; it passes the
    value, unless it is [all], to the backend fetch. *)
Theorem status_filter_spec {JS : Platform} (d : list Entity) (gf v : string) (l : bool) :
  let st := Table.mkState d gf v l in
  let unfiltered := Table.mkState d gf "all" l in
  let has_status := fun row => String.eqb (status row) v in
  status_filter_as_specified InsuranceDataTable.filteredData st
  /\ status_filter_as_specified RequestsDataTable.filteredData st
  /\ (v <> "all" ->
      InsuranceDataTable.filteredData st
      = List.filter has_status (InsuranceDataTable.filteredData unfiltered)
      /\ RequestsDataTable.filteredData st
         = List.filter has_status (RequestsDataTable.filteredData unfiltered))
  /\ BookingsDataTable.filteredData st = BookingsDataTable.filteredData unfiltered
  /\ BookingsDataTable.fetchData_statusFilter st = (if String.eqb v "all" then None else Some v).
Proof.
  intros st unfiltered has_status.
  assert (Hspec : status_filter_as_specified InsuranceDataTable.filteredData st).
  { intros Hgf. unfold InsuranceDataTable.filteredData, st in *. cbn in *. subst gf.
    by destruct (String.eqb v "all"). }
  assert (Hsel : v <> "all" ->
                 InsuranceDataTable.filteredData st
                 = List.filter has_status (InsuranceDataTable.filteredData unfiltered)).
  { intros Hv. apply String.eqb_neq in Hv.
    unfold InsuranceDataTable.filteredData, st, unfiltered. cbn. rewrite Hv. cbn.
    destruct (truthy_string gf); [apply filter_comm|reflexivity]. }
  split; [exact Hspec|]. split; [exact Hspec|].
  split; [intros Hv; split; exact (Hsel Hv)|].
  split; [reflexivity|].
  unfold BookingsDataTable.fetchData_statusFilter. cbn. by destruct (String.eqb v "all").
Qed.

Lemma status_filter_spec_witness :
  InsuranceDataTable.filteredData
    (Table.mkState [sample_request; sample_vanity] "" "confirmed" false)
  = [sample_vanity].
Proof.
  pose proof (status_filter_spec [sample_request; sample_vanity] "" "confirmed" false)
    as (_ & _ & Hsel & _).
  destruct Hsel as [Hsel _]; [discriminate|].
  rewrite Hsel. reflexivity.
Defined.

(** C6 as stated fails on the bookings table: with the status filter set to
    [confirmed], the held row with status [pending] is still shown. *)
Lemma status_filter_bookings_counterexample :
  ~ status_filter_as_specified BookingsDataTable.filteredData
      (Table.mkState [sample_booking] "" "confirmed" false).
Proof. intros H. specialize (H eq_refl). vm_compute in H. discriminate. Qed.

(** * Lists in descending order of a key *)

Section ArraySortFacts.
Context {A : Type}.
Variable key : A -> Z.

Local Notation "'descending'" := (descending_by key).

(** A list in descending order of the key is determined by its elements of
    each key, in their order: whichever stable algorithm an engine runs, it
    returns the same list. *)
Lemma stable_sorted_unique (l1 l2 : list A) :
  StronglySorted descending l1 -> StronglySorted descending l2 ->
  (forall t, List.filter (fun a => key a =? t) l1 = List.filter (fun a => key a =? t) l2) ->
  l1 = l2.
Proof.
  intros H1. revert l2. induction H1 as [|x l1 H1 IH Hx]; intros l2 H2 Heq.
  - destruct l2 as [|y l2]; [reflexivity|].
    specialize (Heq (key y)). cbn in Heq. rewrite Z.eqb_refl in Heq. discriminate.
  - destruct H2 as [|y l2 H2 Hy].
    { specialize (Heq (key x)). cbn in Heq. rewrite Z.eqb_refl in Heq. discriminate. }
    assert (Hxy : key x <= key y).
    { pose proof (Heq (key x)) as E. cbn [List.filter] in E. rewrite Z.eqb_refl in E.
      assert (Hin : In x (List.filter (fun a => key a =? key x) (y :: l2))).
      { cbn [List.filter]. rewrite <- E. by left. }
      apply filter_In in Hin as [[->|Hin] _]; [lia|].
      rewrite Forall_forall in Hy. apply (Hy x). by apply list_elem_of_In. }
    assert (Hyx : key y <= key x).
    { pose proof (Heq (key y)) as E. cbn [List.filter] in E. rewrite Z.eqb_refl in E.
      assert (Hin : In y (List.filter (fun a => key a =? key y) (x :: l1))).
      { cbn [List.filter]. rewrite E. by left. }
      apply filter_In in Hin as [[->|Hin] _]; [lia|].
      rewrite Forall_forall in Hx. apply (Hx y). by apply list_elem_of_In. }
    assert (Hhead : x = y).
    { pose proof (Heq (key x)) as E. cbn [List.filter] in E.
      rewrite Z.eqb_refl in E. replace (key y =? key x) with true in E by lia.
      by injection E. }
    subst y. f_equal. apply IH; [exact H2|].
    intros t. specialize (Heq t). cbn [List.filter] in Heq.
    destruct (key x =? t); [by injection Heq|exact Heq].
Qed.
End ArraySortFacts.

(** * The dashboard page *)

Section Dashboard.
Import DashboardPage.
Context {JS : Platform}.
Variable Date_getTime : string -> option Z.

Lemma store_slice_failure {P} (response : ApiResponse P) (field : P -> option (list Entity))
    (set : list Entity -> State -> State) (st : State) :
  success response = false -> store_slice response field set st = st.
Proof. intros H. unfold store_slice. by rewrite H. Qed.

(** C8. Once the four fetches have settled: when the stats fetch reports
    failure the page shows the error view; when the stats fetch succeeds with
    data the page shows the dashboard whatever the other three report, and a
    slice whose fetch reports failure is the empty list. *)
Theorem dashboard_partial_failure (r : Responses) :
  (success (statsResponse r) = false ->
   mounted Date_getTime (Normal r) = ErrorView "Failed to load dashboard statistics")
  /\ (forall s,
        success (statsResponse r) = true ->
        data (statsResponse r) = Some s ->
        let st := fetchDashboardData (Normal r) initial in
        mounted Date_getTime (Normal r)
        = DashboardView s
            (totalBookings s + totalInsuranceRequests s + totalCarRequests s)
            (size (list_to_set (map phone (bookings st)) : gset Member))
            (bookings st) (insuranceRequests st) (generalRequests st)
            (recentActivity Date_getTime (bookings st) (insuranceRequests st)
                            (generalRequests st))
        /\ (success (bookingsResponse r) = false -> bookings st = [])
        /\ (success (insuranceResponse r) = false -> insuranceRequests st = [])
        /\ (success (requestsResponse r) = false -> generalRequests st = [])).
Proof.
  destruct r as [sr br ir rr]. cbn [statsResponse bookingsResponse insuranceResponse
                                      requestsResponse].
  split.
  - intros Hs. unfold mounted, fetchDashboardData.
    cbn [statsResponse bookingsResponse insuranceResponse requestsResponse]. rewrite Hs.
    cbn [negb]. unfold store_slice.
    destruct (success br), (data br), (success ir), (data ir), (success rr), (data rr);
      reflexivity.
  - intros s Hs Hd. unfold mounted.
    remember (fetchDashboardData (Normal (mkResponses sr br ir rr)) initial) as st eqn:Hst.
    unfold fetchDashboardData in Hst.
    cbn [statsResponse bookingsResponse insuranceResponse requestsResponse] in Hst.
    rewrite Hs, Hd in Hst. cbn [negb] in Hst. unfold store_slice in Hst.
    destruct (success br), (data br), (success ir), (data ir), (success rr), (data rr);
      subst st; repeat split; intros; try reflexivity; try discriminate.
Qed.

(** Wherever both dates parse, the comparator is the difference of the
    creation times. *)
Lemma byCreatedAtDesc_key (x y : Activity) :
  is_Some (Date_getTime (createdAt (entity x))) ->
  is_Some (Date_getTime (createdAt (entity y))) ->
  byCreatedAtDesc Date_getTime x y = Some (created Date_getTime y - created Date_getTime x).
Proof.
  intros [tx Hx] [ty Hy]. unfold byCreatedAtDesc, timestamp, created.
  rewrite Hx, Hy. reflexivity.
Qed.

Lemma tagged_by_source_valid (bs irs gs : list Entity) :
  Forall (fun e => is_Some (Date_getTime (createdAt e))) (bs ++ irs ++ gs) ->
  Forall (fun a => is_Some (Date_getTime (createdAt (entity a)))) (tagged_by_source bs irs gs).
Proof.
  unfold tagged_by_source. rewrite !Forall_app, !Forall_map. intros (Hb & Hi & Hg).
  repeat split; (eapply Forall_impl; [eassumption|]); intros e He; exact He.
Qed.

Lemma StronglySorted_In_impl {A} (R R' : A -> A -> Prop) (l : list A) :
  (forall x y, In x l -> In y l -> R x y -> R' x y) ->
  StronglySorted R l -> StronglySorted R' l.
Proof.
  intros Himpl Hs. induction Hs as [|x l Hs IH Hx]; constructor.
  - apply IH. intros a b Ha Hb. apply Himpl; by right.
  - rewrite List.Forall_forall in *. intros y Hy.
    apply Himpl; [by left|by right|by apply Hx].
Qed.

(** Between entries whose dates parse, the two readings of the order agree,
    and so do the two ways of selecting the entries of one creation time. *)
Lemma not_older_created (x y : Activity) :
  is_Some (Date_getTime (createdAt (entity x))) ->
  is_Some (Date_getTime (createdAt (entity y))) ->
  not_older Date_getTime x y <-> descending_by (created Date_getTime) x y.
Proof.
  intros [tx Hx] [ty Hy]. unfold not_older, descending_by, created. rewrite Hx, Hy. cbn.
  split.
  - intros (ta & tb & [= <-] & [= <-] & Hle). exact Hle.
  - intros Hle. by exists tx, ty.
Qed.

Lemma created_at_created (t : Z) (l : list Activity) :
  Forall (fun a => is_Some (Date_getTime (createdAt (entity a)))) l ->
  List.filter (created_at Date_getTime t) l
  = List.filter (fun a => created Date_getTime a =? t) l.
Proof.
  induction 1 as [|x l [tx Hx] Hl IH]; [reflexivity|]. cbn [List.filter]. rewrite IH.
  assert (Hpoint : created_at Date_getTime t x = (created Date_getTime x =? t)).
  { unfold created_at, created. rewrite Hx. change (default 0 (Some tx)) with tx.
    destruct (Z.eqb_spec tx t) as [->|Hne].
    - by rewrite bool_decide_eq_true_2.
    - rewrite bool_decide_eq_false_2; [reflexivity|]. by intros [= ->]. }
  by rewrite Hpoint.
Qed.

(** In a list in descending order, what [take] keeps is not older than what
    it leaves. *)
Lemma sorted_take_drop {A} (R : A -> A -> Prop) (n : nat) (l : list A) (a b : A) :
  StronglySorted R l -> In a (take n l) -> In b (drop n l) -> R a b.
Proof.
  intros Hs. revert n. induction Hs as [|x l Hs IH Hx]; intros n Ha Hb.
  - by destruct n.
  - destruct n as [|n]; [destruct Ha|]. cbn in Ha, Hb. destruct Ha as [<-|Ha].
    + rewrite Forall_forall in Hx. apply (Hx b).
      apply (subseteq_drop n l). by apply list_elem_of_In.
    + by apply (IH n).
Qed.

(** C9, as amended. When every [createdAt] of the three fetched lists parses
    to a date, the recent-activity feed is the first five entries of the one
    list that holds exactly the records of the three lists, tagged
    [Booking]/[Booking]/[default], [Insurance]/[Insurance]/[secondary] and
    [General]/[Request]/[outline] by their source, in descending order of
    creation time, records of equal time in the order of the concatenation
    bookings, insurance requests, general requests. The feed has five
    entries, or all of them when there are fewer, and no entry left out is
    newer than an entry in it. *)
Theorem recent_activity_feed (bs irs gs : list Entity) :
  Forall (fun e => is_Some (Date_getTime (createdAt e))) (bs ++ irs ++ gs) ->
  let all :=
    map (fun b => mkActivity b "Booking" "Booking" "default") bs
    ++ map (fun i => mkActivity i "Insurance" "Insurance" "secondary") irs
    ++ map (fun g => mkActivity g "General" "Request" "outline") gs in
  let newest_first := fun a b =>
    exists ta tb,
      Date_getTime (createdAt (entity a)) = Some ta
      /\ Date_getTime (createdAt (entity b)) = Some tb
      /\ tb <= ta in
  let same_time := fun t a =>
    bool_decide (Date_getTime (createdAt (entity a)) = Some t) in
  exists sorted,
    recentActivity Date_getTime bs irs gs = take 5 sorted
    /\ Permutation sorted all
    /\ StronglySorted newest_first sorted
    /\ (forall t, List.filter (same_time t) sorted = List.filter (same_time t) all)
    /\ (forall other,
          Permutation other all ->
          StronglySorted newest_first other ->
          (forall t, List.filter (same_time t) other = List.filter (same_time t) all) ->
          other = sorted)
    /\ length (recentActivity Date_getTime bs irs gs)
       = (5 `min` (length bs + length irs + length gs))%nat
    /\ (forall a b, In a (recentActivity Date_getTime bs irs gs) ->
                    In b (drop 5 sorted) -> newest_first a b).
Proof.
  intros Hdates all newest_first same_time.
  change newest_first with (not_older Date_getTime).
  change same_time with (created_at Date_getTime).
  change all with (tagged_by_source bs irs gs) in *. clear all.
  set (all := tagged_by_source bs irs gs).
  assert (Hvalid : Forall (fun a => is_Some (Date_getTime (createdAt (entity a)))) all)
    by (by apply tagged_by_source_valid).
  set (sorted := Array_sort (byCreatedAtDesc Date_getTime) all).
  assert (Hperm : Permutation sorted all) by apply Array_sort_permutation.
  assert (Hvalid' : Forall (fun a => is_Some (Date_getTime (createdAt (entity a)))) sorted)
    by (by rewrite Hperm).
  destruct (Array_sort_consistent Activity (byCreatedAtDesc Date_getTime)
              (created Date_getTime) all) as [Hdesc Hsame].
  { rewrite List.Forall_forall in Hvalid. intros x y Hx Hy.
    apply byCreatedAtDesc_key; by apply Hvalid. }
  fold sorted in Hdesc, Hsame.
  assert (Horder : StronglySorted (not_older Date_getTime) sorted).
  { eapply StronglySorted_In_impl; [|exact Hdesc]. intros x y Hx Hy.
    rewrite List.Forall_forall in Hvalid'. apply not_older_created; by apply Hvalid'. }
  assert (Hstable : forall t, List.filter (created_at Date_getTime t) sorted
                              = List.filter (created_at Date_getTime t) all).
  { intros t. rewrite !created_at_created by assumption. apply Hsame. }
  exists sorted. split; [reflexivity|]. split; [exact Hperm|]. split; [exact Horder|].
  split; [exact Hstable|]. split; [|split].
  - intros other Hother Hsorted Hkeeps.
    assert (Hvalid'' : Forall (fun a => is_Some (Date_getTime (createdAt (entity a)))) other)
      by (by rewrite Hother).
    apply (stable_sorted_unique (created Date_getTime)); [|exact Hdesc|].
    + eapply StronglySorted_In_impl; [|exact Hsorted]. intros x y Hx Hy.
      rewrite List.Forall_forall in Hvalid''. apply not_older_created; by apply Hvalid''.
    + intros t. rewrite <- !created_at_created by assumption.
      etransitivity; [apply Hkeeps|symmetry; apply Hstable].
  - change (recentActivity Date_getTime bs irs gs) with (take 5 sorted).
    rewrite length_take. rewrite (Permutation_length Hperm).
    unfold all, tagged_by_source. rewrite !length_app, !length_map. lia.
  - intros a b Ha Hb. exact (sorted_take_drop _ 5 sorted a b Horder Ha Hb).
Qed.
End Dashboard.

Lemma dashboard_partial_failure_witness :
  DashboardPage.mounted sample_Date_getTime (Normal sample_stats_down)
  = DashboardPage.ErrorView "Failed to load dashboard statistics"
  /\ exists total customers feed,
       DashboardPage.mounted sample_Date_getTime (Normal sample_bookings_down)
       = DashboardPage.DashboardView sample_stats total customers
           [] [sample_request] [sample_anonymous] feed.
Proof.
  split.
  - apply (dashboard_partial_failure sample_Date_getTime sample_stats_down). reflexivity.
  - destruct (dashboard_partial_failure sample_Date_getTime sample_bookings_down) as [_ H].
    destruct (H sample_stats eq_refl eq_refl) as (Hview & Hbookings & _).
    rewrite Hview, (Hbookings eq_refl). eexists _, _, _. reflexivity.
Defined.

Lemma recent_activity_feed_witness :
  Forall (fun e => is_Some (sample_Date_getTime (createdAt e)))
         ([sample_booking; sample_vanity] ++ [sample_request] ++ [sample_anonymous])
  /\ DashboardPage.recentActivity sample_Date_getTime
       [sample_booking; sample_vanity] [sample_request] [sample_anonymous]
     = [ DashboardPage.mkActivity sample_vanity "Booking" "Booking" "default";
         DashboardPage.mkActivity sample_anonymous "General" "Request" "outline";
         DashboardPage.mkActivity sample_request "Insurance" "Insurance" "secondary";
         DashboardPage.mkActivity sample_booking "Booking" "Booking" "default" ].
Proof.
  assert (Hvalid : Forall (fun e => is_Some (sample_Date_getTime (createdAt e)))
                          ([sample_booking; sample_vanity] ++ [sample_request]
                             ++ [sample_anonymous])).
  { repeat constructor; vm_compute; eexists; reflexivity. }
  split; [exact Hvalid|].
  destruct (recent_activity_feed sample_Date_getTime
              [sample_booking; sample_vanity] [sample_request] [sample_anonymous] Hvalid)
    as (sorted & Hfeed & _ & _ & _ & Hunique & _).
  set (expected :=
         [ DashboardPage.mkActivity sample_vanity "Booking" "Booking" "default";
           DashboardPage.mkActivity sample_anonymous "General" "Request" "outline";
           DashboardPage.mkActivity sample_request "Insurance" "Insurance" "secondary";
           DashboardPage.mkActivity sample_booking "Booking" "Booking" "default" ]).
  rewrite Hfeed. rewrite <- (Hunique expected); [reflexivity| | |]; unfold expected.
  - cbn [map app]. symmetry. etransitivity; [apply perm_swap|]. apply perm_skip.
    apply (Permutation_rev [_; _; _]).
  - repeat constructor; eexists _, _; (split; [vm_compute; reflexivity|]);
      (split; [vm_compute; reflexivity|]); lia.
  - intros t. cbn [map app List.filter DashboardPage.entity createdAt].
    repeat case_bool_decide; try reflexivity; exfalso;
      repeat match goal with
             | H : sample_Date_getTime _ = Some _ |- _ => vm_compute in H
             | H : sample_Date_getTime _ <> Some _ |- _ => vm_compute in H
             end; congruence.
Defined.

(** C9 as stated fails when a date does not parse: the comparator then
    returns [NaN] against the undated booking, the sort takes the three
    bookings for one run and leaves them as they are, and the feed shows the
    older of the two dated bookings above the newer. *)
Lemma recent_activity_undated_counterexample :
  let feed := DashboardPage.recentActivity sample_Date_getTime
                [sample_booking; sample_undated; sample_vanity] [] [] in
  map (fun a => createdAt (DashboardPage.entity a)) feed
  = ["2024-03-01T10:00:00Z"; "unknown"; "2024-03-04T12:00:00Z"]
  /\ ~ feed_as_specified sample_Date_getTime
        [sample_booking; sample_undated; sample_vanity] [] [] feed.
Proof.
  split; [vm_compute; reflexivity|].
  intros (sorted & Hperm & Hsorted & Hfeed).
  assert (Hlen : length sorted = 3%nat) by (by rewrite (Permutation_length Hperm)).
  rewrite take_ge in Hfeed by lia. subst sorted.
  assert (Hshown :
            DashboardPage.recentActivity sample_Date_getTime
              [sample_booking; sample_undated; sample_vanity] [] []
            = [ DashboardPage.mkActivity sample_booking "Booking" "Booking" "default";
                DashboardPage.mkActivity sample_undated "Booking" "Booking" "default";
                DashboardPage.mkActivity sample_vanity "Booking" "Booking" "default" ])
    by (vm_compute; reflexivity).
  rewrite Hshown in Hsorted.
  apply StronglySorted_inv in Hsorted as [_ Hfirst].
  apply Forall_cons in Hfirst as [_ Hfirst]. apply Forall_cons in Hfirst as [Hnewer _].
  assert (Holder : sample_Date_getTime (createdAt sample_booking) = Some 1709287200000)
    by (vm_compute; reflexivity).
  assert (Hlater : sample_Date_getTime (createdAt sample_vanity) = Some 1709553600000)
    by (vm_compute; reflexivity).
  specialize (Hnewer _ _ Holder Hlater). lia.
Qed.

(** The feed of the sample records, newest first. *)
Example recent_activity_sample :
  map (fun a => (DashboardPage.label a, _id (DashboardPage.entity a)))
      (DashboardPage.recentActivity sample_Date_getTime
         [sample_booking; sample_vanity] [sample_request] [sample_anonymous])
  = [("Booking", Some "b2"); ("Request", None); ("Insurance", Some "r1");
     ("Booking", Some "b1")].
Proof. vm_compute. reflexivity. Qed.

(** * Further properties of the HTTP client *)

Lemma setAuthToken_eq (token : string) (w : World) :
  setAuthToken token w =
  (Normal tt,
   mkWorld (Some token)
           (match window w with
            | Some win => Some (mkWindow (<["authToken" := token]> (localStorage win))
                                         (location_href win))
            | None => None
            end)).
Proof. destruct w as [tok [win|]]; reflexivity. Qed.

(** X1. A token stored with [setAuthToken] is the one [getAuthToken]
    returns next, in every world and for every token. In a browser it also
    survives a reload of the page, through [localStorage]; where there is no
    [window] a reload loses it. *)
Theorem token_round_trip (token : string) (w : World) :
  let w1 := snd (setAuthToken token w) in
  fst (setAuthToken token w) = Normal tt
  /\ fst (getAuthToken w1) = Normal (Some token)
  /\ fst (getAuthToken (reload w1))
     = Normal (match window w with Some _ => Some token | None => None end).
Proof.
  cbv zeta. rewrite setAuthToken_eq. cbn [fst snd]. rewrite !getAuthToken_eq. cbn [fst].
  split; [reflexivity|]. unfold resolved_token, reload. cbn.
  destruct (window w) as [win|]; cbn.
  - rewrite lookup_insert_eq. split; [|reflexivity].
    unfold truthy_string. destruct (String.eqb token "") eqn:E; [|reflexivity].
    cbn. reflexivity.
  - split; [|reflexivity]. by destruct (truthy_string token).
Qed.

Lemma resolved_token_again (w : World) :
  resolved_token (mkWorld (resolved_token w) (window w)) = resolved_token w.
Proof.
  unfold resolved_token. cbn [authToken window].
  destruct (truthy (authToken w)) eqn:Et.
  - by rewrite Et.
  - destruct (window w) as [win|].
    + by destruct (truthy (localStorage win !! "authToken")).
    + by rewrite Et.
Qed.

(** X2. [getAuthToken] is idempotent and reads only: a second call returns
    what the first returned and changes nothing, and no call changes
    [window], its storage included. *)
Theorem getAuthToken_idempotent (w : World) :
  let w1 := snd (getAuthToken w) in
  getAuthToken w1 = (fst (getAuthToken w), w1)
  /\ window w1 = window w.
Proof.
  cbv zeta. rewrite !getAuthToken_eq. cbn [fst snd window authToken].
  split; [|reflexivity]. by rewrite resolved_token_again.
Qed.

(** X3. The request [apiRequest] hands to [fetch]: the URL is the base URL
    followed by the endpoint; [cache] is [no-cache]; method and body are the
    caller's. When the caller gives no [headers], the headers are
    [Content-Type: application/json] and, exactly when a non-empty token is
    resolved, [Authorization: Bearer <token>]. When the caller gives
    [headers], they replace the built ones, so that neither header is sent
    unless the caller's own headers hold it. *)
Theorem apiRequest_request {T} API_BASE_URL
    (fetch : string -> FetchInit -> Completion (Response.t T)) endpoint options (w : World) :
  let token := resolved_token w in
  let init := fetch_init token options in
  fetched API_BASE_URL fetch endpoint options w = fetch (API_BASE_URL +:+ endpoint) init
  /\ init_cache init = "no-cache"
  /\ init_method init = method options
  /\ init_body init = body options
  /\ match headers options with
     | None =>
         init_headers init !! "Content-Type" = Some "application/json"
         /\ init_headers init !! "Authorization"
            = (if truthy token then Some ("Bearer " +:+ default "" token) else None)
         /\ forall name, name <> "Content-Type" -> name <> "Authorization" ->
                         init_headers init !! name = None
     | Some own => init_headers init = own
     end.
Proof.
  cbv zeta. unfold fetched. rewrite getAuthToken_eq.
  split; [reflexivity|]. split; [reflexivity|]. split; [reflexivity|]. split; [reflexivity|].
  unfold fetch_init, request_headers. cbn [init_headers].
  destruct (headers options) as [own|]; [reflexivity|]. cbn [default].
  destruct (resolved_token w) as [t|]; cbn [truthy default].
  - destruct (truthy_string t).
    + split; [by rewrite lookup_insert_ne|]. split; [by rewrite lookup_insert_eq|].
      intros name H1 H2. rewrite lookup_insert_ne by done.
      rewrite lookup_union, lookup_empty, lookup_singleton_ne by done. reflexivity.
    + split; [by rewrite lookup_union, lookup_empty, lookup_singleton_eq|].
      split; [by rewrite lookup_union, lookup_empty, lookup_singleton_ne|].
      intros name H1 H2. by rewrite lookup_union, lookup_empty, lookup_singleton_ne.
  - split; [by rewrite lookup_union, lookup_empty, lookup_singleton_eq|].
    split; [by rewrite lookup_union, lookup_empty, lookup_singleton_ne|].
    intros name H1 H2. by rewrite lookup_union, lookup_empty, lookup_singleton_ne.
Qed.

(** X4. Only an answer with status 401 ends the session: after any other
    outcome of [apiRequest], a failure included, [window] with its storage
    and location is what it was and the module variable holds the token
    that was resolved for the request. *)
Theorem apiRequest_keeps_session {JS : Platform} {T} API_BASE_URL
    (fetch : string -> FetchInit -> Completion (Response.t T)) endpoint options (w : World) :
  (forall response, fetched API_BASE_URL fetch endpoint options w = Normal response ->
                    Response.status response <> 401) ->
  let w' := snd (apiRequest API_BASE_URL fetch endpoint options w) in
  window w' = window w
  /\ authToken w' = resolved_token w
  /\ fst (getAuthToken w') = fst (getAuthToken w).
Proof.
  intros Hno401. cbv zeta. rewrite apiRequest_eq. cbv zeta.
  assert (Hw : snd (match fetched API_BASE_URL fetch endpoint options w with
                    | Normal response =>
                        if Response.status response =? 401 then
                          (Normal (failure "Authentication failed"), logged_out w)
                        else if negb (Response.ok response) then
                          match Response.text response with
                          | Normal errorText =>
                              (Normal (failure ("HTTP error! status: "
                                                +:+ Number_toString (Response.status response)
                                                +:+ " - " +:+ errorText)),
                               mkWorld (resolved_token w) (window w))
                          | Throw e => (Normal (failure (error_message e)),
                                        mkWorld (resolved_token w) (window w))
                          end
                        else
                          match Response.json response with
                          | Normal j => (Normal (mkApiResponse true (Some j) None None),
                                         mkWorld (resolved_token w) (window w))
                          | Throw e => (Normal (failure (error_message e)),
                                        mkWorld (resolved_token w) (window w))
                          end
                    | Throw e => (Normal (@failure T (error_message e)),
                                  mkWorld (resolved_token w) (window w))
                    end) = mkWorld (resolved_token w) (window w)).
  { destruct (fetched API_BASE_URL fetch endpoint options w) as [response|e]; [|reflexivity].
    specialize (Hno401 response eq_refl).
    destruct (Response.status response =? 401) eqn:E; [lia|].
    destruct (negb (Response.ok response)).
    - by destruct (Response.text response).
    - by destruct (Response.json response). }
  rewrite Hw. cbn [window authToken].
  split; [reflexivity|]. split; [reflexivity|].
  rewrite !getAuthToken_eq. cbn [fst window]. by rewrite resolved_token_again.
Qed.

Lemma apiRequest_keeps_session_witness :
  let w' := snd (apiRequest sample_base (sample_fetch 500 "boom") "/admin/bookings"
                            no_options sample_world) in
  window w' = window sample_world
  /\ authToken w' = resolved_token sample_world
  /\ fst (getAuthToken w') = fst (getAuthToken sample_world).
Proof.
  apply (apiRequest_keeps_session sample_base (sample_fetch 500 "boom") "/admin/bookings"
           no_options sample_world).
  intros response [= <-]. cbn. lia.
Defined.

(** * Further properties of the query strings *)


Lemma query_safe_app (s1 s2 : string) :
  query_safe (s1 +:+ s2) = query_safe s1 && query_safe s2.
Proof.
  induction s1 as [|c s1 IH]; [reflexivity|].
  rewrite append_cons. cbn [query_safe]. rewrite IH. by rewrite andb_assoc.
Qed.

Lemma encode_byte_safe (c : ascii) : query_safe (URLSearchParams.encode_byte c) = true.
Proof. destruct c as [[] [] [] [] [] [] [] []]; reflexivity. Qed.

Lemma encode_safe (s : string) : query_safe (URLSearchParams.encode s) = true.
Proof.
  induction s as [|c s IH]; [reflexivity|].
  cbn [URLSearchParams.encode]. by rewrite query_safe_app, encode_byte_safe, IH.
Qed.

Lemma all_unreserved_safe (s : string) : all_unreserved s = true -> query_safe s = true.
Proof.
  induction s as [|c s IH]; [reflexivity|]. cbn. intros [Hc Hs]%andb_prop.
  by rewrite Hc, (IH Hs).
Qed.

Lemma count_byte_app (c : ascii) (s1 s2 : string) :
  count_byte c (s1 +:+ s2) = (count_byte c s1 + count_byte c s2)%nat.
Proof.
  induction s1 as [|d s1 IH]; [reflexivity|].
  rewrite append_cons. cbn [count_byte]. rewrite IH. lia.
Qed.

Lemma query_safe_no_separator (s : string) :
  query_safe s = true -> count_byte "&" s = 0%nat /\ count_byte "=" s = 0%nat.
Proof.
  induction s as [|c s IH]; [done|]. cbn [query_safe count_byte].
  intros [Hc Hs]%andb_prop. destruct (IH Hs) as [-> ->].
  destruct (Ascii.eqb "&" c) eqn:E1.
  { apply Ascii.eqb_eq in E1. subst c. discriminate. }
  destruct (Ascii.eqb "=" c) eqn:E2.
  { apply Ascii.eqb_eq in E2. subst c. discriminate. }
  done.
Qed.

(** X5. Whatever the status filter holds, its serialized value consists of
    letters, digits and the bytes [* - . _ + %] only, so it cannot open a
    parameter of its own: the query string of [bookingsApi.getAll] has one
    [=] per parameter and one [&] between neighbours, two parameters without
    a filter and three with one. *)
Theorem getAll_query_separators {JS : Platform} (statusFilter : option string) (skip limit : option Z) :
  let query := bookingsApi.getAll_query statusFilter skip limit in
  let parameters := if truthy statusFilter then 3%nat else 2%nat in
  (forall v, query_safe (URLSearchParams.encode v) = true)
  /\ count_byte "=" query = parameters
  /\ count_byte "&" query = (parameters - 1)%nat.
Proof.
  cbv zeta. split; [exact encode_safe|].
  pose proof (query_safe_no_separator _ (encode_safe (Number_toString (default 0 skip))))
    as [Hk1 Hk2].
  pose proof (query_safe_no_separator _ (encode_safe (Number_toString (default 50 limit))))
    as [Hl1 Hl2].
  rewrite getAll_query_eq.
  destruct statusFilter as [v|]; cbn [truthy]; [destruct (truthy_string v)|].
  - pose proof (query_safe_no_separator _ (encode_safe v)) as [Hv1 Hv2].
    rewrite !count_byte_app, Hk1, Hk2, Hl1, Hl2, Hv1, Hv2. split; reflexivity.
  - rewrite !count_byte_app, Hk1, Hk2, Hl1, Hl2. split; reflexivity.
  - rewrite !count_byte_app, Hk1, Hk2, Hl1, Hl2. split; reflexivity.
Qed.

Lemma form_decode_encode_byte (c : ascii) (rest : string) :
  form_decode (URLSearchParams.encode_byte c +:+ rest) = String c (form_decode rest).
Proof. destruct c as [[] [] [] [] [] [] [] []]; reflexivity. Qed.

Lemma form_decode_encode_app (s rest : string) :
  form_decode (URLSearchParams.encode s +:+ rest) = s +:+ form_decode rest.
Proof.
  induction s as [|c s IH]; [reflexivity|].
  cbn [URLSearchParams.encode]. rewrite append_assoc, form_decode_encode_byte, IH.
  reflexivity.
Qed.

Lemma append_length (s1 s2 : string) :
  String.length (s1 +:+ s2) = (String.length s1 + String.length s2)%nat.
Proof.
  induction s1 as [|c s1 IH]; [reflexivity|]. rewrite append_cons. cbn. by rewrite IH.
Qed.

Lemma append_cancel_r (s1 s2 rest : string) : s1 +:+ rest = s2 +:+ rest -> s1 = s2.
Proof.
  revert s2. induction s1 as [|c s1 IH]; intros [|d s2] H.
  - reflexivity.
  - apply (f_equal String.length) in H. rewrite !append_length in H. cbn in H. lia.
  - apply (f_equal String.length) in H. rewrite !append_length in H. cbn in H. lia.
  - rewrite !append_cons in H. injection H as -> H. f_equal. by apply IH.
Qed.

(** X6. The status filter can be read back from the query string: two
    non-empty filters for which [bookingsApi.getAll] builds the same query
    string, the pagination being the same, are the same filter. *)
Theorem getAll_query_injective {JS : Platform} (v1 v2 : string) (skip limit : option Z) :
  truthy_string v1 = true ->
  truthy_string v2 = true ->
  bookingsApi.getAll_query (Some v1) skip limit = bookingsApi.getAll_query (Some v2) skip limit ->
  v1 = v2.
Proof.
  intros H1 H2. rewrite !getAll_query_eq, H1, H2, !append_assoc. intros H.
  apply (f_equal form_decode) in H. revert H.
  set (rest := "&" +:+ "skip=" +:+ URLSearchParams.encode (Number_toString (default 0 skip))
                 +:+ "&limit=" +:+ URLSearchParams.encode (Number_toString (default 50 limit))).
  intros H.
  assert (Hd : forall v, form_decode ("status_filter=" +:+ URLSearchParams.encode v +:+ rest)
                         = "status_filter=" +:+ v +:+ form_decode rest).
  { intros v. change ("status_filter=" +:+ URLSearchParams.encode v +:+ rest)
      with (String "s" (String "t" (String "a" (String "t" (String "u" (String "s"
             (String "_" (String "f" (String "i" (String "l" (String "t" (String "e"
             (String "r" (String "=" (URLSearchParams.encode v +:+ rest))))))))))))))).
    cbn [form_decode Ascii.eqb Bool.eqb]. rewrite form_decode_encode_app. reflexivity. }
  rewrite !Hd in H.
  change ("status_filter=" +:+ ?x) with
    (String "s" (String "t" (String "a" (String "t" (String "u" (String "s"
      (String "_" (String "f" (String "i" (String "l" (String "t" (String "e"
      (String "r" (String "=" x)))))))))))))) in H.
  injection H as H. by apply append_cancel_r in H.
Qed.

Lemma getAll_query_injective_witness :
  bookingsApi.getAll_query (Some "to follow up") None None
  = bookingsApi.getAll_query (Some "to follow up") (Some 0) (Some 50)
  /\ "to follow up" = "to follow up".
Proof.
  split; [reflexivity|].
  apply (getAll_query_injective "to follow up" "to follow up" None None); reflexivity.
Defined.

(** * Further properties of the status edits *)

Lemma without_status_map_status (rowIndex : nat) (value : string) (rows : list Entity) :
  without_status <$> map_status rowIndex value rows = without_status <$> rows.
Proof.
  apply list_eq. intros j. rewrite !list_lookup_fmap, map_status_lookup.
  destruct (rows !! j) as [row|]; [|reflexivity]. cbn.
  by destruct (bool_decide (j = rowIndex)).
Qed.

Lemma same_but_status_at_refl (rowIndex : nat) (st : Table.State) :
  same_but_status_at rowIndex st st.
Proof. by repeat split. Qed.

Lemma same_but_status_at_setData (rowIndex : nat) (value : string) (st st' : Table.State) :
  same_but_status_at rowIndex st st' ->
  same_but_status_at rowIndex st (Table.setData (map_status rowIndex value) st').
Proof.
  intros (Hrows & Hother & Hgf & Hsf & Hld). unfold Table.setData.
  repeat split; cbn -[map_status]; try done.
  - by rewrite without_status_map_status.
  - intros j Hj. rewrite map_status_lookup_ne by done. by apply Hother.
Qed.

(** X7. An edit changes nothing but one status. In each of the three table
    components, at every stage of [updateData] and whatever the backend
    answers, the component holds the same rows in the same order with all
    their other fields, every row but the one at [rowIndex] is untouched, and
    the filters and the loading flag are what they were. *)
Theorem updateData_touches_one_status (rowIndex : nat) (columnId value : string)
    (st : Table.State) (cache : option (list Entity)) {T}
    (settled : Completion (ApiResponse T)) :
  let s := CachedTable.mkStore cache st in
  (same_but_status_at rowIndex st
     (Table.state_of (BookingsDataTable.updateData_start rowIndex columnId value st))
   /\ same_but_status_at rowIndex st
        (BookingsDataTable.updateData rowIndex columnId value settled st))
  /\ (same_but_status_at rowIndex st
        (CachedTable.component
           (Table.state_of (InsuranceDataTable.updateData_start rowIndex columnId value s)))
      /\ same_but_status_at rowIndex st
           (CachedTable.component
              (InsuranceDataTable.updateData rowIndex columnId value settled s)))
  /\ (same_but_status_at rowIndex st
        (CachedTable.component
           (Table.state_of (RequestsDataTable.updateData_start rowIndex columnId value s)))
      /\ same_but_status_at rowIndex st
           (CachedTable.component
              (RequestsDataTable.updateData rowIndex columnId value settled s))).
Proof.
  intros s.
  assert (Hb : same_but_status_at rowIndex st
                 (Table.state_of (BookingsDataTable.updateData_start rowIndex columnId value st))
               /\ same_but_status_at rowIndex st
                    (BookingsDataTable.updateData rowIndex columnId value settled st)).
  { unfold BookingsDataTable.updateData, BookingsDataTable.updateData_start,
      BookingsDataTable.updateData_resume.
    destruct (String.eqb columnId "status"); [|split; apply same_but_status_at_refl].
    destruct (Table.data st !! rowIndex) as [row|]; [|split; apply same_but_status_at_refl].
    destruct (_id row) as [id|]; [|split; apply same_but_status_at_refl].
    destruct (truthy_string id); [|split; apply same_but_status_at_refl].
    cbn [Table.state_of].
    pose proof (same_but_status_at_setData rowIndex value st st
                  (same_but_status_at_refl rowIndex st)) as Hopt.
    split; [exact Hopt|].
    destruct settled as [response|e]; [destruct (success response); cbn [negb]|];
      try exact Hopt; by apply same_but_status_at_setData. }
  assert (Hc : same_but_status_at rowIndex st
                 (CachedTable.component
                    (Table.state_of
                       (InsuranceDataTable.updateData_start rowIndex columnId value s)))
               /\ same_but_status_at rowIndex st
                    (CachedTable.component
                       (InsuranceDataTable.updateData rowIndex columnId value settled s))).
  { unfold InsuranceDataTable.updateData, InsuranceDataTable.updateData_start,
      InsuranceDataTable.updateData_resume, CachedTable.data, s.
    cbn [CachedTable.component].
    destruct (String.eqb columnId "status"); [|split; apply same_but_status_at_refl].
    destruct (Table.data st !! rowIndex) as [row|]; [|split; apply same_but_status_at_refl].
    destruct (_id row) as [id|]; [|split; apply same_but_status_at_refl].
    destruct (truthy_string id); [|split; apply same_but_status_at_refl].
    cbn [Table.state_of].
    assert (Hopt : same_but_status_at rowIndex st
                     (CachedTable.component
                        (CachedTable.setData_caching (map_status rowIndex value)
                           (CachedTable.mkStore cache st)))).
    { unfold CachedTable.setData_caching. cbn [CachedTable.component].
      destruct st as [rows gf sf ld]. unfold Table.setData. cbn -[map_status].
      repeat split; cbn -[map_status]; try done.
      - by rewrite without_status_map_status.
      - intros j Hj. by rewrite map_status_lookup_ne. }
    split; [exact Hopt|].
    destruct settled as [response|e]; [destruct (success response); cbn [negb]|];
      try exact Hopt; unfold CachedTable.setData; cbn [CachedTable.component];
      by apply same_but_status_at_setData. }
  split; [exact Hb|]. split; exact Hc.
Qed.

(** X8. Two overlapping edits of one row are not serialized. The row has
    status [S0]; it is set to [S1] and, before that call settles, to [S2].
    When the backend rejects the first edit and accepts the second, the
    table ends up showing [S0], in whichever order the two answers arrive,
    although the backend now holds [S2]. *)
Theorem overlapping_edits_lose_the_accepted_one (rowIndex : nat) (row : Entity)
    (id S1 S2 : string) (st : Table.State) {T} (rejected accepted : ApiResponse T) :
  Table.data st !! rowIndex = Some row ->
  _id row = Some id ->
  truthy_string id = true ->
  success rejected = false ->
  success accepted = true ->
  let first := BookingsDataTable.updateData_start rowIndex "status" S1 st in
  let second :=
    BookingsDataTable.updateData_start rowIndex "status" S2 (Table.state_of first) in
  let shown := with_status S1 row in
  first = Table.Awaiting row (Table.mkUpdateCall id S1) (Table.state_of first)
  /\ second = Table.Awaiting shown (Table.mkUpdateCall id S2) (Table.state_of second)
  /\ status <$> Table.data (Table.state_of second) !! rowIndex = Some S2
  /\ BookingsDataTable.updateData_resume rowIndex shown (Normal accepted)
       (BookingsDataTable.updateData_resume rowIndex row (Normal rejected)
          (Table.state_of second))
     = st
  /\ BookingsDataTable.updateData_resume rowIndex row (Normal rejected)
       (BookingsDataTable.updateData_resume rowIndex shown (Normal accepted)
          (Table.state_of second))
     = st.
Proof.
  intros Hrow Hid Htruthy Hrej Hacc. cbv zeta.
  assert (Hfirst : BookingsDataTable.updateData_start rowIndex "status" S1 st
                   = Table.Awaiting row (Table.mkUpdateCall id S1)
                       (Table.setData (map_status rowIndex S1) st)).
  { unfold BookingsDataTable.updateData_start. rewrite Hrow, Hid, Htruthy. reflexivity. }
  rewrite Hfirst. cbn [Table.state_of].
  assert (Hrow1 : Table.data (Table.setData (map_status rowIndex S1) st) !! rowIndex
                  = Some (with_status S1 row)).
  { unfold Table.setData. cbn [Table.data]. by apply map_status_lookup_eq. }
  assert (Hsecond : BookingsDataTable.updateData_start rowIndex "status" S2
                      (Table.setData (map_status rowIndex S1) st)
                    = Table.Awaiting (with_status S1 row) (Table.mkUpdateCall id S2)
                        (Table.setData (map_status rowIndex S2)
                           (Table.setData (map_status rowIndex S1) st))).
  { unfold BookingsDataTable.updateData_start. rewrite Hrow1.
    cbn [_id with_status]. rewrite Hid, Htruthy. reflexivity. }
  rewrite Hsecond. cbn [Table.state_of].
  split; [reflexivity|]. split; [reflexivity|].
  split.
  { unfold Table.setData at 1. cbn [Table.data].
    by rewrite (map_status_lookup_eq _ _ _ _ Hrow1). }
  assert (Hback : map_status rowIndex (status row)
                    (map_status rowIndex S2 (map_status rowIndex S1 (Table.data st)))
                  = Table.data st).
  { apply list_eq. intros j. rewrite !map_status_lookup.
    destruct (decide (j = rowIndex)) as [->|Hne].
    - rewrite Hrow. cbn. rewrite bool_decide_eq_true_2 by done. f_equal. by destruct row.
    - rewrite bool_decide_eq_false_2 by done. by destruct (Table.data st !! j). }
  unfold BookingsDataTable.updateData_resume. rewrite Hrej, Hacc. cbn [negb].
  unfold Table.setData. cbn -[map_status]. rewrite Hback. by destruct st.
Qed.

Lemma overlapping_edits_lose_the_accepted_one_witness :
  let second :=
    BookingsDataTable.updateData_start 0 "status" "completed"
      (Table.state_of (BookingsDataTable.updateData_start 0 "status" "confirmed"
                         sample_bookings_table)) in
  status <$> Table.data (Table.state_of second) !! 0%nat = Some "completed"
  /\ BookingsDataTable.updateData_resume 0 (with_status "confirmed" sample_booking)
       (Normal sample_success)
       (BookingsDataTable.updateData_resume 0 sample_booking (Normal sample_failure)
          (Table.state_of second))
     = sample_bookings_table.
Proof.
  pose proof (overlapping_edits_lose_the_accepted_one 0 sample_booking "b1" "confirmed"
                "completed" sample_bookings_table sample_failure sample_success
                eq_refl eq_refl eq_refl eq_refl eq_refl)
    as (_ & _ & Hshown & Hlost & _).
  split; [exact Hshown|exact Hlost].
Defined.

(** * The fetch effects and the cache *)

(** X9. A list fetch that succeeds replaces the held rows by exactly the
    rows of the answer, in each table component: whatever was held before,
    the component then holds the answer's list, is no longer loading and
    keeps its filters; the two caching variants store the same list in
    [globalCachedData]. *)
Theorem fetch_success_replaces_rows (rows : list Entity) (total : Z)
    (st : Table.State) (cache : option (list Entity)) :
  let s := CachedTable.mkStore cache st in
  let held := Table.mkState rows (Table.globalFilter st) (Table.statusFilter st) false in
  BookingsMount.fetchData_resume
    (Normal (mkApiResponse true (Some (bookingsApi.mkPayload (Some rows) total)) None None))
    (BookingsMount.fetchData_start st)
  = Some held
  /\ InsuranceMount.fetchData_resume
       (Normal (mkApiResponse true (Some (insuranceRequestsApi.mkPayload (Some rows) total))
                              None None))
       (InsuranceMount.fetchData_start s)
     = Some (CachedTable.mkStore (Some rows) held)
  /\ RequestsMount.fetchData_resume
       (Normal (mkApiResponse true (Some (generalRequestsApi.mkPayload (Some rows) total))
                              None None))
       (RequestsMount.fetchData_start s)
     = Some (CachedTable.mkStore (Some rows) held).
Proof.
  cbv zeta. split; [reflexivity|].
  unfold InsuranceMount.fetchData_start, RequestsMount.fetchData_start.
  destruct (bool_decide (length (CachedTable.data (CachedTable.mkStore cache st)) = 0%nat));
    split; reflexivity.
Qed.

(** X10. A list fetch that fails leaves the view stale, not empty: when the
    call is rejected, reports failure or comes without data, each table
    component keeps the rows it held, and the caching variants keep their
    cache; only the loading flag is cleared. *)
Theorem fetch_failure_keeps_rows (st : Table.State) (cache : option (list Entity))
    (bookingsSettled : Completion (ApiResponse bookingsApi.Payload))
    (insuranceSettled : Completion (ApiResponse insuranceRequestsApi.Payload))
    (requestsSettled : Completion (ApiResponse generalRequestsApi.Payload)) :
  fetch_failed bookingsSettled ->
  fetch_failed insuranceSettled ->
  fetch_failed requestsSettled ->
  let s := CachedTable.mkStore cache st in
  let kept := setIsLoading false st in
  BookingsMount.fetchData_resume bookingsSettled (BookingsMount.fetchData_start st) = Some kept
  /\ InsuranceMount.fetchData_resume insuranceSettled (InsuranceMount.fetchData_start s)
     = Some (CachedTable.mkStore cache kept)
  /\ RequestsMount.fetchData_resume requestsSettled (RequestsMount.fetchData_start s)
     = Some (CachedTable.mkStore cache kept).
Proof.
  intros Hb Hi Hr. cbv zeta.
  unfold InsuranceMount.fetchData_start, RequestsMount.fetchData_start.
  split; [|split].
  - destruct bookingsSettled as [response|e]; [|reflexivity]. cbn in Hb |- *.
    destruct Hb as [-> | ->]; [reflexivity|]. by destruct (success response).
  - destruct (bool_decide _); (destruct insuranceSettled as [response|e]; [|reflexivity]);
      cbn in Hi |- *; (destruct Hi as [-> | ->]; [reflexivity|]); by destruct (success response).
  - destruct (bool_decide _); (destruct requestsSettled as [response|e]; [|reflexivity]);
      cbn in Hr |- *; (destruct Hr as [-> | ->]; [reflexivity|]); by destruct (success response).
Qed.

Lemma fetch_failure_keeps_rows_witness :
  BookingsMount.fetchData_resume (Normal (failure "HTTP error! status: 500 - boom"))
    (BookingsMount.fetchData_start sample_bookings_table)
  = Some sample_bookings_table
  /\ InsuranceMount.fetchData_resume (Throw (ErrorInstance "Failed to fetch"))
       (InsuranceMount.fetchData_start sample_store)
     = Some sample_store.
Proof.
  destruct (fetch_failure_keeps_rows sample_bookings_table
              (Some [sample_request; sample_anonymous])
              (Normal (failure "HTTP error! status: 500 - boom"))
              (Throw (ErrorInstance "Failed to fetch"))
              (Throw (ErrorInstance "Failed to fetch")))
    as (Hb & _); [by left|done|done|].
  destruct (fetch_failure_keeps_rows sample_requests_table
              (Some [sample_request; sample_anonymous])
              (Throw (ErrorInstance "Failed to fetch"))
              (Throw (ErrorInstance "Failed to fetch"))
              (Throw (ErrorInstance "Failed to fetch")))
    as (_ & Hi & _); [done|done|done|].
  split; [exact Hb|exact Hi].
Defined.

(** X11. Re-fetching is idempotent: when the backend gives the same answer
    again, running the fetch effect a second time leaves each table
    component exactly as the first run left it. *)
Theorem refetch_idempotent (st st1 : Table.State) (s s1 : CachedTable.Store)
    (bookingsSettled : Completion (ApiResponse bookingsApi.Payload))
    (insuranceSettled : Completion (ApiResponse insuranceRequestsApi.Payload))
    (requestsSettled : Completion (ApiResponse generalRequestsApi.Payload)) :
  (BookingsMount.fetchData_resume bookingsSettled (BookingsMount.fetchData_start st) = Some st1 ->
   BookingsMount.fetchData_resume bookingsSettled (BookingsMount.fetchData_start st1) = Some st1)
  /\ (InsuranceMount.fetchData_resume insuranceSettled (InsuranceMount.fetchData_start s)
      = Some s1 ->
      InsuranceMount.fetchData_resume insuranceSettled (InsuranceMount.fetchData_start s1)
      = Some s1)
  /\ (RequestsMount.fetchData_resume requestsSettled (RequestsMount.fetchData_start s)
      = Some s1 ->
      RequestsMount.fetchData_resume requestsSettled (RequestsMount.fetchData_start s1)
      = Some s1).
Proof.
  split; [|split].
  - unfold BookingsMount.fetchData_resume, BookingsMount.fetchData_start.
    destruct bookingsSettled as [response|e].
    + destruct (success response), (data response) as [payload|];
        try (intros [= <-]; reflexivity).
      destruct (bookingsApi.bookings payload); [|discriminate]. intros [= <-]. reflexivity.
    + intros [= <-]. reflexivity.
  - unfold InsuranceMount.fetchData_resume, InsuranceMount.fetchData_start.
    destruct insuranceSettled as [response|e].
    + destruct (success response), (data response) as [payload|];
        try (intros [= <-]; repeat case_bool_decide; reflexivity).
      destruct (insuranceRequestsApi.requests payload); [|discriminate].
      intros [= <-]. repeat case_bool_decide; reflexivity.
    + intros [= <-]. repeat case_bool_decide; reflexivity.
  - unfold RequestsMount.fetchData_resume, RequestsMount.fetchData_start.
    destruct requestsSettled as [response|e].
    + destruct (success response), (data response) as [payload|];
        try (intros [= <-]; repeat case_bool_decide; reflexivity).
      destruct (generalRequestsApi.requests payload); [|discriminate].
      intros [= <-]. repeat case_bool_decide; reflexivity.
    + intros [= <-]. repeat case_bool_decide; reflexivity.
Qed.

Lemma refetch_idempotent_witness :
  BookingsMount.fetchData_resume (Normal sample_bookings_response)
    (BookingsMount.fetchData_start
       (Table.mkState [sample_booking; sample_vanity] "" "all" false))
  = Some (Table.mkState [sample_booking; sample_vanity] "" "all" false).
Proof.
  destruct (refetch_idempotent (BookingsMount.initial None)
              (Table.mkState [sample_booking; sample_vanity] "" "all" false)
              sample_store sample_store
              (Normal sample_bookings_response)
              (Throw (ErrorInstance "Failed to fetch"))
              (Throw (ErrorInstance "Failed to fetch")))
    as (Hb & _).
  apply Hb. reflexivity.
Defined.

(** X12. The first render of the caching tables. Once [globalCachedData] is
    set, a mount shows exactly the cached rows and no loading placeholder,
    whatever [initialData] it is given, so an empty cached list hides rows
    passed as [initialData]. Without a cache it shows [initialData], and
    the loading placeholder exactly when there are no rows. After a fetch
    that succeeded, a later mount therefore shows the fetched rows at once. *)
Theorem mount_prefers_cache (cached rows : list Entity) (total : Z)
    (initialData : option (list Entity)) (s : CachedTable.Store) :
  (CachedTable.data (InsuranceMount.initial (Some cached) initialData) = cached
   /\ Table.isLoading (CachedTable.component (InsuranceMount.initial (Some cached) initialData))
      = false)
  /\ (CachedTable.data (InsuranceMount.initial None initialData) = default [] initialData
      /\ Table.isLoading (CachedTable.component (InsuranceMount.initial None initialData))
         = bool_decide (default [] initialData = []))
  /\ (forall s1,
        InsuranceMount.fetchData_resume
          (Normal (mkApiResponse true
                     (Some (insuranceRequestsApi.mkPayload (Some rows) total)) None None))
          (InsuranceMount.fetchData_start s) = Some s1 ->
        InsuranceMount.initial (CachedTable.globalCachedData s1) initialData
        = CachedTable.mkStore (Some rows) (Table.mkState rows "" "all" false))
  /\ RequestsMount.initial (Some cached) initialData
     = InsuranceMount.initial (Some cached) initialData
  /\ RequestsMount.initial None initialData = InsuranceMount.initial None initialData.
Proof.
  split; [split; reflexivity|]. split; [|split; [|split; reflexivity]].
  - split; [reflexivity|]. cbn. destruct initialData as [[|row rows']|]; reflexivity.
  - intros s1. unfold InsuranceMount.fetchData_start.
    destruct (bool_decide _); intros [= <-]; reflexivity.
Qed.

Lemma mount_prefers_cache_witness :
  InsuranceMount.initial
    (CachedTable.globalCachedData
       (CachedTable.mkStore (Some [sample_request])
                            (Table.mkState [sample_request] "" "all" false)))
    (Some [sample_anonymous])
  = CachedTable.mkStore (Some [sample_request]) (Table.mkState [sample_request] "" "all" false).
Proof.
  destruct (mount_prefers_cache [] [sample_request] 1 (Some [sample_anonymous])
              (InsuranceMount.initial None None))
    as (_ & _ & Hfetched & _).
  apply (Hfetched (CachedTable.mkStore (Some [sample_request])
                                       (Table.mkState [sample_request] "" "all" false))).
  reflexivity.
Defined.

(** X13. What a user sees after a rejected edit in the caching tables: the
    open table shows the old status again, but a table mounted afterwards
    starts from the cache and shows the rejected status [S1] for that row,
    until a fetch succeeds. *)
Theorem remount_shows_rejected_status (rowIndex : nat) (row : Entity) (id S1 : string)
    (s : CachedTable.Store) {T} (response : ApiResponse T)
    (initialData : option (list Entity)) :
  CachedTable.data s !! rowIndex = Some row ->
  _id row = Some id ->
  truthy_string id = true ->
  success response = false ->
  let after := InsuranceDataTable.updateData rowIndex "status" S1 (Normal response) s in
  let after' := RequestsDataTable.updateData rowIndex "status" S1 (Normal response) s in
  CachedTable.data after !! rowIndex = Some row
  /\ CachedTable.data (InsuranceMount.initial (CachedTable.globalCachedData after) initialData)
       !! rowIndex
     = Some (with_status S1 row)
  /\ CachedTable.data after' !! rowIndex = Some row
  /\ CachedTable.data (RequestsMount.initial (CachedTable.globalCachedData after') initialData)
       !! rowIndex
     = Some (with_status S1 row).
Proof.
  intros Hrow Hid Htruthy Hs. cbv zeta.
  destruct (failed_update_cache rowIndex row id S1 s response Hrow Hid Htruthy Hs)
    as [Hci Hcr].
  rewrite Hci, Hcr.
  assert (Hdata : CachedTable.data
                    (InsuranceDataTable.updateData rowIndex "status" S1 (Normal response) s)
                  = CachedTable.data s).
  { unfold InsuranceDataTable.updateData, InsuranceDataTable.updateData_start,
      InsuranceDataTable.updateData_resume.
    cbn -[map_status]. rewrite Hrow, Hid, Htruthy, Hs. cbn -[map_status].
    unfold CachedTable.data in *. cbn -[map_status].
    by rewrite (map_status_revert _ _ _ _ Hrow). }
  change (RequestsDataTable.updateData rowIndex "status" S1 (Normal response) s)
    with (InsuranceDataTable.updateData rowIndex "status" S1 (Normal response) s).
  rewrite Hdata.
  assert (Hmount : CachedTable.data
                     (InsuranceMount.initial
                        (Some (map_status rowIndex S1 (CachedTable.data s))) initialData)
                     !! rowIndex = Some (with_status S1 row)).
  { unfold InsuranceMount.initial, CachedTable.data. cbn -[map_status].
    by apply map_status_lookup_eq. }
  repeat split; try exact Hrow; exact Hmount.
Qed.

Lemma remount_shows_rejected_status_witness :
  status <$> CachedTable.data
               (InsuranceMount.initial
                  (CachedTable.globalCachedData
                     (InsuranceDataTable.updateData 0 "status" "contacted"
                        (Normal sample_failure) sample_store))
                  None) !! 0%nat
  = Some "contacted".
Proof.
  destruct (remount_shows_rejected_status 0 sample_request "r1" "contacted" sample_store
              sample_failure None eq_refl eq_refl eq_refl eq_refl)
    as (_ & Hmount & _).
  rewrite Hmount. reflexivity.
Defined.

(** * Further properties of the client-side filters *)

Lemma filter_sublist {A} (f : A -> bool) (l : list A) : List.filter f l `sublist_of` l.
Proof.
  induction l as [|x l IH]; cbn; [constructor|].
  destruct (f x); by constructor.
Qed.

(** X14. Filtering only hides rows: in each table component the rows shown
    are a sublist of the rows held, in the same order, none repeated or
    invented, whatever the two filters are. *)
Theorem filteredData_sublist {JS : Platform} (st : Table.State) :
  BookingsDataTable.filteredData st `sublist_of` Table.data st
  /\ InsuranceDataTable.filteredData st `sublist_of` Table.data st
  /\ RequestsDataTable.filteredData st `sublist_of` Table.data st.
Proof.
  assert (Hi : InsuranceDataTable.filteredData st `sublist_of` Table.data st).
  { unfold InsuranceDataTable.filteredData.
    destruct (negb (String.eqb (Table.statusFilter st) "all")),
      (truthy_string (Table.globalFilter st)); try reflexivity;
      try apply filter_sublist.
    etransitivity; apply filter_sublist. }
  split; [|split; exact Hi].
  unfold BookingsDataTable.filteredData.
  destruct (truthy_string (Table.globalFilter st)); [apply filter_sublist|reflexivity].
Qed.

Lemma is_ascii_app (s1 s2 : string) : is_ascii (s1 +:+ s2) = is_ascii s1 && is_ascii s2.
Proof.
  induction s1 as [|c s1 IH]; [reflexivity|].
  rewrite append_cons. cbn [is_ascii]. by rewrite IH, andb_assoc.
Qed.

Lemma occurs_is_ascii (a b : string) : occurs a b -> is_ascii b = true -> is_ascii a = true.
Proof.
  intros (p & q & ->). rewrite !is_ascii_app, !andb_true_iff. tauto.
Qed.

Lemma occurs_trans (a b c : string) : occurs a b -> occurs b c -> occurs a c.
Proof.
  intros (p1 & q1 & ->) (p2 & q2 & ->).
  exists (p2 +:+ p1), (q1 +:+ q2). by rewrite !append_assoc.
Qed.

Lemma occurs_ascii_lowered (a b : string) :
  occurs a b -> occurs (ascii_toLowerCase a) (ascii_toLowerCase b).
Proof.
  intros (p & q & ->). exists (ascii_toLowerCase p), (ascii_toLowerCase q).
  by rewrite !ascii_toLowerCase_app.
Qed.

Lemma occurs_empty (a : string) : occurs a "" -> a = "".
Proof.
  intros ([|c p] & q & H); [|rewrite append_cons in H; discriminate].
  destruct a; [reflexivity|]. discriminate.
Qed.

Lemma lower_includes_narrower {JS : Platform} (field : option string) (wider narrower : string) :
  is_ascii narrower = true ->
  occurs wider narrower ->
  lower_includes field narrower = true -> lower_includes field wider = true.
Proof.
  rewrite !lower_includes_spec. intros Hascii Hocc (f & -> & Hf).
  exists f. split; [reflexivity|].
  unfold occurs_lowered in *.
  rewrite (toLowerCase_ascii wider (occurs_is_ascii _ _ Hocc Hascii)).
  rewrite (toLowerCase_ascii narrower Hascii) in Hf.
  eapply occurs_trans; [|exact Hf]. by apply occurs_ascii_lowered.
Qed.

Lemma plain_includes_narrower (field : option string) (wider narrower : string) :
  occurs wider narrower ->
  plain_includes field narrower = true -> plain_includes field wider = true.
Proof.
  rewrite !plain_includes_spec. intros Hocc (f & -> & Hf). exists f. split; [reflexivity|].
  by eapply occurs_trans.
Qed.

(** X15. Narrowing an ASCII search never brings rows back: when the text in
    the search box is replaced by an ASCII text that contains it, for instance
    by typing on at either end, every row shown afterwards was shown before,
    in each of the three table components, whatever the fields of the rows
    hold. *)
Theorem narrower_filter_shows_fewer {JS : Platform} (st : Table.State) (narrower : string)
    (row : Entity) :
  is_ascii narrower = true ->
  occurs (Table.globalFilter st) narrower ->
  (In row (BookingsDataTable.filteredData (with_globalFilter narrower st)) ->
   In row (BookingsDataTable.filteredData st))
  /\ (In row (InsuranceDataTable.filteredData (with_globalFilter narrower st)) ->
      In row (InsuranceDataTable.filteredData st))
  /\ (In row (RequestsDataTable.filteredData (with_globalFilter narrower st)) ->
      In row (RequestsDataTable.filteredData st)).
Proof.
  intros Hascii Hocc.
  assert (Hi : In row (InsuranceDataTable.filteredData (with_globalFilter narrower st)) ->
               In row (InsuranceDataTable.filteredData st)).
  { unfold InsuranceDataTable.filteredData, with_globalFilter.
    cbn [Table.data Table.globalFilter Table.statusFilter].
    set (held := if negb (String.eqb (Table.statusFilter st) "all")
                 then List.filter
                        (fun item => String.eqb (status item) (Table.statusFilter st))
                        (Table.data st)
                 else Table.data st).
    destruct (truthy_string narrower) eqn:En.
    - rewrite filter_In, !orb_true_iff. intros [Hin Hkeep].
      destruct (truthy_string (Table.globalFilter st)); [|exact Hin].
      rewrite filter_In, !orb_true_iff. split; [exact Hin|].
      destruct Hkeep as [[H|H]|H]; eauto using lower_includes_narrower.
    - apply truthy_string_false in En. subst narrower. apply occurs_empty in Hocc.
      rewrite Hocc. cbn. done. }
  split; [|split; exact Hi].
  unfold BookingsDataTable.filteredData, with_globalFilter.
  cbn [Table.data Table.globalFilter Table.statusFilter].
  destruct (truthy_string narrower) eqn:En.
  - rewrite filter_In, !orb_true_iff. intros [Hin Hkeep].
    destruct (truthy_string (Table.globalFilter st)); [|exact Hin].
    rewrite filter_In, !orb_true_iff. split; [exact Hin|].
    destruct Hkeep as [[[H|H]|H]|H];
      eauto using lower_includes_narrower, plain_includes_narrower.
  - apply truthy_string_false in En. subst narrower. apply occurs_empty in Hocc.
    rewrite Hocc. cbn. done.
Qed.

Lemma narrower_filter_shows_fewer_witness :
  is_ascii "corolla" = true
  /\ occurs "cor" "corolla"
  /\ (In sample_booking
         (BookingsDataTable.filteredData
            (Table.mkState [sample_booking; sample_vanity] "corolla" "all" false)) ->
      In sample_booking
         (BookingsDataTable.filteredData
            (Table.mkState [sample_booking; sample_vanity] "cor" "all" false))).
Proof.
  assert (Hocc : occurs "cor" "corolla") by by exists EmptyString, "olla".
  split; [reflexivity|]. split; [exact Hocc|].
  exact (proj1 (narrower_filter_shows_fewer
                  (Table.mkState [sample_booking; sample_vanity] "cor" "all" false)
                  "corolla" sample_booking eq_refl Hocc)).
Defined.

Lemma equal_ignoring_case_empty (s1 s2 : string) :
  equal_ignoring_case s1 s2 = true -> truthy_string s1 = truthy_string s2.
Proof. destruct s1, s2; by try discriminate. Qed.

(** X16. In the insurance-requests and general-requests tables only the
    letters of an ASCII search text count, not their case: two ASCII texts
    that differ in nothing but the case of letters among [A]-[Z] show the
    same rows, whatever the fields of the rows hold. *)
Theorem filter_text_case_is_ignored {JS : Platform} (st : Table.State) (text1 text2 : string) :
  is_ascii text1 = true ->
  is_ascii text2 = true ->
  equal_ignoring_case text1 text2 = true ->
  InsuranceDataTable.filteredData (with_globalFilter text1 st)
  = InsuranceDataTable.filteredData (with_globalFilter text2 st)
  /\ RequestsDataTable.filteredData (with_globalFilter text1 st)
     = RequestsDataTable.filteredData (with_globalFilter text2 st).
Proof.
  intros Hascii1 Hascii2 Hcase.
  assert (Htruthy : truthy_string text1 = truthy_string text2)
    by (by apply equal_ignoring_case_empty).
  assert (Hlow : toLowerCase text1 = toLowerCase text2).
  { rewrite (toLowerCase_ascii text1 Hascii1), (toLowerCase_ascii text2 Hascii2).
    by apply equal_ignoring_case_spec. }
  assert (Hfield : forall field, lower_includes field text1 = lower_includes field text2).
  { intros [f|]; [|reflexivity]. unfold lower_includes. by rewrite Hlow. }
  assert (Hi : InsuranceDataTable.filteredData (with_globalFilter text1 st)
               = InsuranceDataTable.filteredData (with_globalFilter text2 st)).
  { unfold InsuranceDataTable.filteredData, with_globalFilter.
    cbn [Table.data Table.globalFilter Table.statusFilter]. rewrite Htruthy.
    destruct (truthy_string text2); [|reflexivity].
    apply filter_ext. intros item. by rewrite !Hfield. }
  split; exact Hi.
Qed.

Lemma filter_text_case_is_ignored_witness :
  InsuranceDataTable.filteredData (Table.mkState [sample_request; sample_anonymous] "HONDA" "all" false)
  = InsuranceDataTable.filteredData (Table.mkState [sample_request; sample_anonymous] "Honda" "all" false).
Proof.
  exact (proj1 (filter_text_case_is_ignored
                  (Table.mkState [sample_request; sample_anonymous] "" "all" false)
                  "HONDA" "Honda" eq_refl eq_refl eq_refl)).
Defined.

(** * Further properties of the dashboard page *)

Section DashboardViews.
Import DashboardPage.
Context {JS : Platform}.
Variable Date_getTime : string -> option Z.

(** X17. What the page shows once its effect has run, in every case: never
    the loading placeholder; the dashboard exactly when the four calls
    resolved and the stats call succeeded with data; the error text
    [Failed to fetch dashboard data.] when the joined promise is rejected,
    and [Failed to load dashboard data] when the stats call succeeded
    without data. *)
Theorem dashboard_view_cases (settled : Completion Responses) :
  mounted Date_getTime settled <> LoadingView
  /\ (forall e, settled = Throw e ->
                mounted Date_getTime settled = ErrorView "Failed to fetch dashboard data.")
  /\ (forall r, settled = Normal r ->
                success (statsResponse r) = true -> data (statsResponse r) = None ->
                mounted Date_getTime settled = ErrorView "Failed to load dashboard data")
  /\ ((exists s total customers bs irs gs feed,
          mounted Date_getTime settled = DashboardView s total customers bs irs gs feed)
      <-> (exists r s, settled = Normal r /\ success (statsResponse r) = true
                       /\ data (statsResponse r) = Some s)).
Proof.
  destruct settled as [[sr br ir rr]|e].
  - unfold mounted, fetchDashboardData, store_slice.
    cbn [statsResponse bookingsResponse insuranceResponse requestsResponse].
    destruct (success sr) eqn:Es, (data sr) as [s|] eqn:Ed; cbn [negb];
      destruct (success br), (data br), (success ir), (data ir), (success rr), (data rr);
      cbn; (split; [discriminate|]); (split; [intros e' [=]|]);
      (split; [intros r [= <-]; cbn; intros; congruence|]);
      (split; [intros (s' & total & customers & bs & irs & gs & feed & H);
               first [discriminate H | by eexists _, _]
              |intros (r & s' & [= <-] & H1 & H2); cbn in H1, H2;
               first [congruence | by eexists _, _, _, _, _, _, _]]).
  - unfold mounted, fetchDashboardData. cbn.
    split; [discriminate|]. split; [reflexivity|]. split; [intros r [=]|].
    split; [intros (s' & total & customers & bs & irs & gs & feed & H); discriminate
           |intros (r & s' & [=] & _)].
Qed.

(** X18. Every row of the recent-activity table comes from one of the three
    fetched lists and carries the tags of its source; the badge variant the
    table computes from [type] is the [statusColor] the row was tagged
    with. *)
Theorem feed_rows_are_tagged (bs irs gs : list Entity) (item : Activity) :
  In item (recentActivity Date_getTime bs irs gs) ->
  badge_variant item = statusColor item
  /\ (In (entity item) bs /\ type item = "Booking" /\ label item = "Booking"
      \/ In (entity item) irs /\ type item = "Insurance" /\ label item = "Insurance"
      \/ In (entity item) gs /\ type item = "General" /\ label item = "Request").
Proof.
  intros Hin. unfold recentActivity in Hin.
  apply list_elem_of_In, (subseteq_take 5), list_elem_of_In in Hin.
  apply (Permutation_in _ (Array_sort_permutation _ _ _)) in Hin.
  unfold tagged in Hin. rewrite !in_app_iff, !in_map_iff in Hin.
  destruct Hin as [(e & <- & He)|[(e & <- & He)|(e & <- & He)]]; cbn; auto 10.
Qed.
End DashboardViews.

Lemma dashboard_view_cases_witness :
  DashboardPage.mounted sample_Date_getTime (Throw (ErrorInstance "Failed to fetch"))
  = DashboardPage.ErrorView "Failed to fetch dashboard data."
  /\ exists s total customers bs irs gs feed,
       DashboardPage.mounted sample_Date_getTime (Normal sample_bookings_down)
       = DashboardPage.DashboardView s total customers bs irs gs feed.
Proof.
  split.
  - destruct (dashboard_view_cases sample_Date_getTime
                (Throw (ErrorInstance "Failed to fetch"))) as (_ & Hrejected & _).
    apply (Hrejected (ErrorInstance "Failed to fetch")). reflexivity.
  - destruct (dashboard_view_cases sample_Date_getTime (Normal sample_bookings_down))
      as (_ & _ & _ & Hshown).
    apply Hshown. exists sample_bookings_down, sample_stats. repeat split.
Defined.

Lemma feed_rows_are_tagged_witness :
  In (DashboardPage.tagInsurance sample_request)
     (DashboardPage.recentActivity sample_Date_getTime [sample_booking] [sample_request] [])
  /\ badge_variant (DashboardPage.tagInsurance sample_request) = "secondary".
Proof.
  assert (Hin : In (DashboardPage.tagInsurance sample_request)
                   (DashboardPage.recentActivity sample_Date_getTime
                      [sample_booking] [sample_request] [])).
  { vm_compute. left. reflexivity. }
  split; [exact Hin|].
  destruct (feed_rows_are_tagged sample_Date_getTime _ _ _ _ Hin) as [Hbadge _].
  exact Hbadge.
Defined.

Lemma totalCustomers_cons (b : Entity) (bs : list Entity) :
  totalCustomers (b :: bs)
  = if bool_decide (phone b ∈ map phone bs) then totalCustomers bs
    else S (totalCustomers bs).
Proof.
  unfold totalCustomers. cbn [map list_to_set foldr].
  change (list_to_set (phone b :: map phone bs) : gset Member)
    with ({[phone b]} ∪ (list_to_set (map phone bs) : gset Member)).
  case_bool_decide as Hin.
  - f_equal. apply subseteq_union_1_L, singleton_subseteq_l.
    by apply elem_of_list_to_set.
  - rewrite size_union, size_singleton; [reflexivity|].
    apply disjoint_singleton_l. by rewrite elem_of_list_to_set.
Qed.

(** X19. The customer count of the page is the number of distinct phone
    values among the fetched bookings, as a [Set] tells them apart: an empty
    list counts zero, a booking whose phone occurs again later in the list
    adds nothing, any other adds one, so the count never exceeds the number
    of bookings. Bookings whose phone is missing count together as one
    customer and those whose phone is [null] as another. The page shows this
    count of the bookings it holds. *)
Theorem totalCustomers_counts_distinct_phones {JS : Platform} (b : Entity) (bs : list Entity) :
  totalCustomers [] = 0%nat
  /\ totalCustomers (b :: bs)
     = (if bool_decide (phone b ∈ map phone bs) then totalCustomers bs
        else S (totalCustomers bs))
  /\ (totalCustomers bs <= length bs)%nat
  /\ (forall missing null : Entity,
        phone missing = Undefined -> phone null = Null ->
        totalCustomers [missing; missing] = 1%nat
        /\ totalCustomers [null; null] = 1%nat
        /\ totalCustomers [missing; null] = 2%nat)
  /\ (forall Date_getTime st,
        match DashboardPage.render Date_getTime st with
        | DashboardPage.DashboardView _ _ customers held _ _ _ =>
            customers = totalCustomers held
        | _ => True
        end).
Proof.
  split; [reflexivity|]. split; [apply totalCustomers_cons|]. split; [|split].
  - induction bs as [|x l IH]; [reflexivity|].
    rewrite totalCustomers_cons. case_bool_decide; cbn [length]; lia.
  - intros missing null Hmissing Hnull.
    rewrite !totalCustomers_cons. cbn [map]. rewrite Hmissing, Hnull.
    split; [|split].
    + rewrite bool_decide_eq_true_2 by apply list_elem_of_here.
      by rewrite bool_decide_eq_false_2 by apply not_elem_of_nil.
    + rewrite bool_decide_eq_true_2 by apply list_elem_of_here.
      by rewrite bool_decide_eq_false_2 by apply not_elem_of_nil.
    + rewrite bool_decide_eq_false_2 by (by intros [=]%list_elem_of_singleton).
      by rewrite bool_decide_eq_false_2 by apply not_elem_of_nil.
  - intros D st. unfold DashboardPage.render.
    destruct (DashboardPage.loading st); [exact I|].
    destruct (DashboardPage.stats st); [|exact I].
    destruct (truthy (DashboardPage.error st)); [exact I|reflexivity].
Qed.

Lemma totalCustomers_counts_distinct_phones_witness :
  phone sample_request = Undefined
  /\ phone sample_undated = Null
  /\ totalCustomers [sample_request; sample_undated] = 2%nat.
Proof.
  destruct (totalCustomers_counts_distinct_phones sample_request [])
    as (_ & _ & _ & Hkinds & _).
  destruct (Hkinds sample_request sample_undated eq_refl eq_refl) as (_ & _ & Hboth).
  split; [reflexivity|]. split; [reflexivity|exact Hboth].
Defined.

(** * The layout shell and the sidebar *)

Lemma layout_mount_eq (w : World) :
  DashboardLayout.mount w
  = Normal (if truthy (resolved_token w) then
              mkShell (mkWorld (resolved_token w) (window w)) [] true
            else
              mkShell (mkWorld (resolved_token w) (window w)) [Push "/login"] false).
Proof.
  unfold DashboardLayout.mount, DashboardLayout.effect. cbn [shell_world].
  rewrite getAuthToken_eq. by destruct (truthy (resolved_token w)).
Qed.

Lemma resolved_token_logged_out (w : World) : resolved_token (logged_out w) = None.
Proof.
  destruct w as [tok [win|]]; unfold resolved_token, logged_out; cbn; [|reflexivity].
  by rewrite lookup_delete_eq.
Qed.

Lemma resolved_token_cleared (w : World) :
  resolved_token (snd (clearAuthToken w)) = None
  /\ resolved_token (reload (snd (clearAuthToken w))) = None.
Proof.
  rewrite clearAuthToken_eq. unfold resolved_token, reload. cbn.
  destruct (window w) as [win|]; cbn; [|done]. by rewrite lookup_delete_eq.
Qed.

(** X20. The layout gate. Mounting the layout never throws. It renders its
    children exactly when a non-empty token is held in the module variable
    or, the variable being empty, in the [localStorage] of a [window];
    otherwise it renders nothing and asks the router for [/login]. The
    check is for presence only, and it leaves [window] as it is. *)
Theorem layout_gate (w : World) :
  exists sh,
    DashboardLayout.mount w = Normal sh
    /\ (DashboardLayout.renders_children sh = true <->
        truthy (authToken w) = true
        \/ exists win, window w = Some win /\ truthy (localStorage win !! "authToken") = true)
    /\ navigations sh
       = (if DashboardLayout.renders_children sh then [] else [Push "/login"])
    /\ window (shell_world sh) = window w.
Proof.
  rewrite layout_mount_eq. eexists. split; [reflexivity|].
  unfold resolved_token.
  destruct (truthy (authToken w)) eqn:Et.
  - rewrite Et. cbn. repeat split; auto.
  - destruct (window w) as [win|] eqn:Ew.
    + destruct (truthy (localStorage win !! "authToken")) eqn:Es; cbn;
        repeat split; try done.
      * intros _. right. by exists win.
      * intros [H|(win' & [= <-] & H)]; congruence.
    + rewrite Et. cbn. repeat split; try done.
      intros [H|(win' & [=] & _)]. discriminate.
Qed.

(** X21. Logging out from the sidebar never throws; it clears the token in
    the module variable and in the storage and asks the router to replace
    the page by [/login]. After it no token is resolved, so the layout, when
    mounted again, at once or after a reload, renders nothing and asks for
    [/login]. *)
Theorem logout_closes_the_shell (sh : Shell) :
  exists sh1,
    AppSidebar.handleLogout sh = Normal sh1
    /\ navigations sh1 = navigations sh ++ [Replace "/login"]
    /\ authToken (shell_world sh1) = None
    /\ (forall win, window (shell_world sh1) = Some win ->
                    localStorage win !! "authToken" = None)
    /\ fst (getAuthToken (shell_world sh1)) = Normal None
    /\ DashboardLayout.mount (shell_world sh1)
       = Normal (mkShell (mkWorld None (window (shell_world sh1))) [Push "/login"] false)
    /\ DashboardLayout.mount (reload (shell_world sh1))
       = Normal (mkShell (mkWorld None (window (shell_world sh1))) [Push "/login"] false).
Proof.
  unfold AppSidebar.handleLogout.
  pose proof (resolved_token_cleared (shell_world sh)) as [Hnow Hlater].
  rewrite clearAuthToken_eq in *. cbn [snd] in Hnow, Hlater.
  eexists. split; [reflexivity|]. cbn [navigations shell_world authToken window].
  split; [reflexivity|]. split; [reflexivity|]. split; [|split; [|split]].
  - intros win. destruct (window (shell_world sh)) as [win0|]; [|done].
    intros [= <-]. cbn. by rewrite lookup_delete_eq.
  - rewrite getAuthToken_eq. cbn [fst]. by rewrite Hnow.
  - rewrite layout_mount_eq, Hnow. reflexivity.
  - rewrite layout_mount_eq, Hlater. reflexivity.
Qed.

(** X22. A 401 answer closes the shell as a logout does: after an
    [apiRequest] that was answered with status 401, mounting the layout, at
    once or after a reload, renders nothing and asks the router for
    [/login]. *)
Theorem unauthorized_answer_closes_the_shell {JS : Platform} {T} API_BASE_URL
    (fetch : string -> FetchInit -> Completion (Response.t T)) endpoint options (w : World)
    (response : Response.t T) :
  fetched API_BASE_URL fetch endpoint options w = Normal response ->
  Response.status response = 401 ->
  let w' := snd (apiRequest API_BASE_URL fetch endpoint options w) in
  (exists sh, DashboardLayout.mount w' = Normal sh
              /\ DashboardLayout.renders_children sh = false
              /\ navigations sh = [Push "/login"])
  /\ (exists sh, DashboardLayout.mount (reload w') = Normal sh
                 /\ DashboardLayout.renders_children sh = false
                 /\ navigations sh = [Push "/login"]).
Proof.
  intros Hf H401. cbv zeta. rewrite apiRequest_eq, Hf, H401. cbn [Z.eqb Pos.eqb snd].
  assert (Hlater : resolved_token (reload (logged_out w)) = None).
  { destruct w as [tok [win|]]; unfold resolved_token, reload, logged_out; cbn; [|reflexivity].
    by rewrite lookup_delete_eq. }
  split; eexists; rewrite layout_mount_eq.
  - rewrite resolved_token_logged_out. cbn. by repeat split.
  - rewrite Hlater. cbn. by repeat split.
Qed.

Lemma unauthorized_answer_closes_the_shell_witness :
  let w' := snd (apiRequest sample_base (sample_fetch 401 "expired") "/admin/bookings"
                            no_options sample_world) in
  exists sh, DashboardLayout.mount w' = Normal sh
             /\ DashboardLayout.renders_children sh = false
             /\ navigations sh = [Push "/login"].
Proof.
  exact (proj1 (unauthorized_answer_closes_the_shell sample_base (sample_fetch 401 "expired")
                  "/admin/bookings" no_options sample_world
                  (Response.mk 401 (Normal "expired") (Normal tt)) eq_refl eq_refl)).
Defined.

(** X23. A stored token opens the shell. After [setAuthToken(token)] the
    layout renders its children exactly when the token is not the empty
    string, without asking for [/login]; in a browser the same holds after
    a reload of the page, and where there is no [window] a reload closes
    the shell. *)
Theorem stored_token_opens_the_shell (token : string) (w : World) :
  let w1 := snd (setAuthToken token w) in
  (exists sh, DashboardLayout.mount w1 = Normal sh
              /\ DashboardLayout.renders_children sh = truthy_string token
              /\ navigations sh = (if truthy_string token then [] else [Push "/login"]))
  /\ (exists sh, DashboardLayout.mount (reload w1) = Normal sh
                 /\ DashboardLayout.renders_children sh
                    = (match window w with
                       | Some _ => truthy_string token
                       | None => false
                       end)).
Proof.
  cbv zeta. rewrite setAuthToken_eq. cbn [snd]. rewrite !layout_mount_eq.
  set (w1 := mkWorld (Some token)
               (match window w with
                | Some win => Some (mkWindow (<["authToken" := token]> (localStorage win))
                                             (location_href win))
                | None => None
                end)).
  assert (Hnow : resolved_token w1 = Some token).
  { unfold resolved_token, w1. cbn. destruct (truthy_string token); [reflexivity|].
    destruct (window w) as [win|]; cbn; [by rewrite lookup_insert_eq|reflexivity]. }
  assert (Hlater : resolved_token (reload w1)
                   = match window w with Some _ => Some token | None => None end).
  { unfold resolved_token, reload, w1. cbn.
    destruct (window w) as [win|]; cbn; [by rewrite lookup_insert_eq|reflexivity]. }
  rewrite Hnow, Hlater. cbn [truthy]. split.
  - destruct (truthy_string token); eexists; by repeat split.
  - destruct (window w) as [win|]; cbn [truthy];
      [destruct (truthy_string token)|]; eexists; by repeat split.
Qed.

Lemma layout_gate_witness :
  exists sh,
    DashboardLayout.mount (reload sample_world) = Normal sh
    /\ DashboardLayout.renders_children sh = true
    /\ navigations sh = [].
Proof.
  destruct (layout_gate (reload sample_world)) as (sh & Hmount & Hiff & Hnav & _).
  exists sh. split; [exact Hmount|].
  assert (Hopen : DashboardLayout.renders_children sh = true).
  { apply Hiff. right. eexists. split; [reflexivity|]. reflexivity. }
  split; [exact Hopen|]. by rewrite Hnav, Hopen.
Defined.

Lemma logout_closes_the_shell_witness :
  exists sh1,
    AppSidebar.handleLogout (mkShell sample_world [] true) = Normal sh1
    /\ navigations sh1 = [Replace "/login"]
    /\ fst (getAuthToken (shell_world sh1)) = Normal None.
Proof.
  destruct (logout_closes_the_shell (mkShell sample_world [] true))
    as (sh1 & Hlogout & Hnav & _ & _ & Htoken & _).
  exists sh1. split; [exact Hlogout|]. split; [exact Hnav|exact Htoken].
Defined.
